(** * Frogger: collision geometry, obstacle motion and the event-driven
      game state machine of [js/main.js], as a shallow embedding.

    Conventions of the embedding.
    - A JavaScript number that holds a pixel coordinate, a speed or a
      threshold is an exact rational ([Q]); the grid coordinates of the
      player and the millisecond clock are integers ([Z]).  Where the
      rounding of the code matters, the same methods are given on IEEE
      doubles as well ([Double]).
    - Objects are records; a method that mutates [this] is a function from
      the record to the updated record.  Methods that publish on the event
      bus work on the whole game ([World]), which owns every object.
    - [Date.now()] is an input of the method that reads it.
    - An observer registered on the bus is a closure; closures are named by
      the constructors of [Observer] and their bodies are given by
      [observer_body]. *)

From Stdlib Require Import QArith Qabs Qminmax Lqa.
From Stdlib Require Import PrimFloat.
From stdpp Require Import base option gmap strings list.

Open Scope Z_scope.

(** ** Game global constants *)

Module GAME_EVENTS.
Definition STOP : string := "stop".
Definition WIN : string := "win".
Definition LOSE : string := "lose".
Definition CHANGE_CHARACTER : string := "change_character".
Definition RESET : string := "reset".
End GAME_EVENTS.

Module CHARACTERS.
Definition BOY : string := "img/char-boy.png".
Definition CAT_GIRL : string := "img/char-cat-girl.png".
Definition HORN_GIRL : string := "img/char-horn-girl.png".
Definition PINK_GIRL : string := "img/char-pink-girl.png".
Definition PRINCESS_GIRL : string := "img/char-princess-girl.png".
End CHARACTERS.

(** ** Numbers *)

(** [a <= b] and [a > b] of JavaScript on exact rationals. *)
Definition Qleb (a b : Q) : bool := Qle_bool a b.
Definition Qgtb (a b : Q) : bool :=
  (Qnum b * QDen a <? Qnum a * QDen b)%Z.

Notation "a <=? b" := (Qleb a b) : Q_scope.
Notation "a >=? b" := (Qleb b a) (at level 70) : Q_scope.
Notation "a >? b" := (Qgtb a b) : Q_scope.

(** ** Object states *)

(** The fields of a [FieldElement] that change during play. *)
Record FieldElement := mkField {
  drawWin : bool;
  drawLose : bool;
  canvas : Q * Q  (* canvas.width, canvas.height *)
}.

(** What [params] of [emitEvent] can be in this program: the default [{}]
    or the string value of the selected option. *)
Inductive Value :=
| EmptyObject
| Str (s : string).

(** A [Player]: square (grid) position, the captured constructor argument
    [initialSquarePosition], the sprite and the freeze flag. *)
Record Player := mkPlayer {
  p_x : Z;
  p_y : Z;
  p_initialSquarePosition : Z * Z;
  p_charImage : Value;
  p_stopped : bool
}.

(** An [Enemy]. *)
Record Enemy := mkEnemy {
  e_row : Z;
  e_x : Q;
  e_increase : Q;
  e_lastUpdate : Z;
  e_stopped : bool
}.

(** ** GameElement: position and size *)

Class GameElement (T : Type) := {
  getPosition : T -> Q * Q;
  getSize : T -> Q * Q
}.

#[export] Instance FieldElement_GameElement : GameElement FieldElement := {|
  getPosition := fun _ => (0, 0)%Q;
  getSize := fun f => canvas f
|}.

#[export] Instance Player_GameElement : GameElement Player := {|
  getPosition := fun p => (inject_Z (p_x p * 101), inject_Z (p_y p * 83 - 25));
  getSize := fun _ => (101, 83)%Q
|}.

#[export] Instance Enemy_GameElement : GameElement Enemy := {|
  getPosition := fun e => (e_x e, inject_Z (e_row e * 83 - 25));
  getSize := fun _ => (101, 83)%Q
|}.

(** ** GameElementBoundaries *)

Module GameElementBoundaries.

Record t := mk {
  topLeft : Q * Q;
  topRight : Q * Q;
  bottomLeft : Q * Q;
  bottomRight : Q * Q;
  leftThreshold : Q;
  rightThreshold : Q;
  topThreshold : Q;
  bottomThreshold : Q
}.

(** The options object of the constructor; every field defaults to 0. *)
Record Thresholds := mkThresholds {
  opt_leftThreshold : Q;
  opt_rightThreshold : Q;
  opt_topThreshold : Q;
  opt_bottomThreshold : Q
}.

Definition defaults : Thresholds := mkThresholds 0 0 0 0.

Definition new {T} `{GameElement T} (gameElement : T) (o : Thresholds) : t :=
  let '(x, y) := getPosition gameElement in
  let '(width, height) := getSize gameElement in
  {| topLeft := (x, y);
     topRight := (x + width, y)%Q;
     bottomLeft := (x, y + height)%Q;
     bottomRight := (x + width, y + height)%Q;
     leftThreshold := opt_leftThreshold o;
     rightThreshold := opt_rightThreshold o;
     topThreshold := opt_topThreshold o;
     bottomThreshold := opt_bottomThreshold o |}.

Open Scope Q_scope.

Definition _checkTopRightCollision (this : t) (bl tr : Q * Q) : bool :=
  let '(blX, blY) := bl in
  let '(trX, trY) := tr in
  let '(localTrX, localTrY) := topRight this in
  let xCollision := (blX + rightThreshold this <=? localTrX) && (trX >=? localTrX) in
  let yCollision := (trY <=? localTrY) && (blY - topThreshold this >=? localTrY) in
  xCollision && yCollision.

Definition _checkTopLeftCollision (this : t) (br tl : Q * Q) : bool :=
  let '(brX, brY) := br in
  let '(tlX, tlY) := tl in
  let '(localTlX, localTlY) := topLeft this in
  let xCollision := (tlX <=? localTlX) && (brX - leftThreshold this >=? localTlX) in
  let yCollision := (tlY <=? localTlY) && (brY - topThreshold this >=? localTlY) in
  xCollision && yCollision.

Definition _checkBottomRightCollision (this : t) (br tl : Q * Q) : bool :=
  let '(brX, brY) := br in
  let '(tlX, tlY) := tl in
  let '(localBrX, localBrY) := bottomRight this in
  let xCollision := (tlX + rightThreshold this <=? localBrX) && (brX >=? localBrX) in
  let yCollision := (tlY + bottomThreshold this <=? localBrY) && (brY >=? localBrY) in
  xCollision && yCollision.

Definition _checkBottomLeftCollision (this : t) (bl tr : Q * Q) : bool :=
  let '(blX, blY) := bl in
  let '(trX, trY) := tr in
  let '(localBlx, localBly) := bottomLeft this in
  let xCollision := (blX <=? localBlx) && (trX - leftThreshold this >=? localBlx) in
  let yCollision := (trY + bottomThreshold this <=? localBly) && (blY >=? localBly) in
  xCollision && yCollision.

Definition checkCollision (this gameElementBoundary : t) : bool :=
  _checkTopRightCollision this (bottomLeft gameElementBoundary) (topRight gameElementBoundary)
  || _checkTopLeftCollision this (bottomRight gameElementBoundary) (topLeft gameElementBoundary)
  || _checkBottomRightCollision this (bottomRight gameElementBoundary) (topLeft gameElementBoundary)
  || _checkBottomLeftCollision this (bottomLeft gameElementBoundary) (topRight gameElementBoundary).

(** The fourth test as an earlier revision of [main.js] has it:
    horizontally it adds [rightThreshold] to the other element's left
    edge instead. *)
Definition _checkBottomLeftCollision_earlier (this : t) (bl tr : Q * Q) : bool :=
  let '(blX, blY) := bl in
  let '(trX, trY) := tr in
  let '(localBlx, localBly) := bottomLeft this in
  let xCollision := (blX + rightThreshold this <=? localBlx) && (trX >=? localBlx) in
  let yCollision := (trY + bottomThreshold this <=? localBly) && (blY >=? localBly) in
  xCollision && yCollision.

End GameElementBoundaries.

(** ** The game as one state *)

(** Who published an event: the [source] argument of [emitEvent]. *)
Inductive Source :=
| SrcPlayer     (* the Player object *)
| SrcGame       (* the FroggerGame object *)
| SrcCombobox.  (* the character select element *)

(** The closures passed to [observeEvent], one constructor per arrow
    function of the source; an [Enemy] closure carries the index of its
    enemy among the enemies of the game. *)
Inductive Observer :=
| FieldElement_onReset
| FieldElement_onWin
| FieldElement_onLose
| Player_onChangeCharacter
| Player_onReset
| Player_onStop
| Enemy_onReset (i : nat)
| Enemy_onStop (i : nat)
| FroggerGame_onWin
| FroggerGame_onLose.

#[export] Instance Observer_eq_dec : EqDecision Observer.
Proof. solve_decision. Defined.

#[export] Instance Source_eq_dec : EqDecision Source.
Proof. solve_decision. Defined.

#[export] Instance Value_eq_dec : EqDecision Value.
Proof. solve_decision. Defined.

(** The callback given to [sleep(duration).then(...)]. *)
Inductive Callback :=
| EmitReset.  (* async () => await this.eventBus.emitEvent(RESET, this) *)

(** What the bus did, in order (a record of the run, not a field of the
    program): a call of [emitEvent], the call of an observer, and the
    moment the awaited observer has finished. *)
Inductive Action :=
| Emit (event : string) (source : Source) (params : Value)
| Enter (observer : Observer)
| Leave (observer : Observer).

#[export] Instance Action_eq_dec : EqDecision Action.
Proof. solve_decision. Defined.

Record World := mkWorld {
  root : FieldElement;
  player : Player;
  enemies : list Enemy;                   (* the other children of root *)
  events : gmap string (list Observer);   (* eventBus.events *)
  timers : list (Z * Callback);           (* pending window.setTimeout *)
  trace : list Action
}.

Definition set_root (f : FieldElement) (w : World) : World :=
  mkWorld f (player w) (enemies w) (events w) (timers w) (trace w).
Definition set_player (p : Player) (w : World) : World :=
  mkWorld (root w) p (enemies w) (events w) (timers w) (trace w).
Definition set_enemies (es : list Enemy) (w : World) : World :=
  mkWorld (root w) (player w) es (events w) (timers w) (trace w).
Definition set_events (m : gmap string (list Observer)) (w : World) : World :=
  mkWorld (root w) (player w) (enemies w) m (timers w) (trace w).
Definition set_timers (ts : list (Z * Callback)) (w : World) : World :=
  mkWorld (root w) (player w) (enemies w) (events w) ts (trace w).
Definition record (a : Action) (w : World) : World :=
  mkWorld (root w) (player w) (enemies w) (events w) (timers w) (trace w ++ [a]).

(** A piece of code that runs on the game; [None] only when the fuel that
    bounds nested publishing is used up. *)
Definition Task := World -> option World.

Definition skip : Task := Some.
Definition modify (f : World -> World) : Task := fun w => Some (f w).
Definition andThen (a b : Task) : Task :=
  fun w => match a w with Some w' => b w' | None => None end.

Notation "a >> b" := (andThen a b) (at level 65, right associativity).

(** ** EventBus *)

Module EventBus.

(** [Set.prototype.add]: insertion order, an element already present is
    not added again. *)
Definition Set_add (observer : Observer) (s : list Observer) : list Observer :=
  if decide (observer ∈ s) then s else s ++ [observer].

Definition observeEvent (event : string) (observer : Observer)
    (this : gmap string (list Observer)) : gmap string (list Observer) :=
  let this' :=
    if decide (is_Some (this !! event)) then this else <[event := []]> this in
  alter (Set_add observer) event this'.

End EventBus.

(** ** Bodies of the observers *)

Definition setTimeout (duration : Z) (k : Callback) (w : World) : World :=
  set_timers (timers w ++ [(duration, k)]) w.

Definition Player_reset (this : Player) : Player :=
  mkPlayer (fst (p_initialSquarePosition this)) (snd (p_initialSquarePosition this))
           (p_initialSquarePosition this) (p_charImage this) false.

Definition Player_stop (this : Player) : Player :=
  mkPlayer (p_x this) (p_y this) (p_initialSquarePosition this) (p_charImage this) true.

Definition Player_changeCharacter (new_character : Value) (this : Player) : Player :=
  mkPlayer (p_x this) (p_y this) (p_initialSquarePosition this) new_character (p_stopped this).

Definition Enemy_reset (this : Enemy) : Enemy :=
  mkEnemy (e_row this) (-101) (e_increase this) (e_lastUpdate this) false.

Definition Enemy_stop (this : Enemy) : Enemy :=
  mkEnemy (e_row this) (e_x this) (e_increase this) (e_lastUpdate this) true.

Section Observers.

(** The bus method the two game observers call back into. *)
Variable emitEvent : string -> Source -> Value -> Task.

Definition observer_body (observer : Observer)
    (event : string) (source : Source) (params : Value) : Task :=
  match observer with
  | FieldElement_onReset =>
      modify (fun w => set_root (mkField false false (canvas (root w))) w)
  | FieldElement_onWin =>
      modify (fun w => set_root (mkField true (drawLose (root w)) (canvas (root w))) w)
  | FieldElement_onLose =>
      modify (fun w => set_root (mkField (drawWin (root w)) true (canvas (root w))) w)
  | Player_onChangeCharacter =>
      modify (fun w => set_player (Player_changeCharacter params (player w)) w)
  | Player_onReset =>
      modify (fun w => set_player (Player_reset (player w)) w)
  | Player_onStop =>
      modify (fun w => set_player (Player_stop (player w)) w)
  | Enemy_onReset i =>
      modify (fun w => set_enemies (alter Enemy_reset i (enemies w)) w)
  | Enemy_onStop i =>
      modify (fun w => set_enemies (alter Enemy_stop i (enemies w)) w)
  | FroggerGame_onWin =>
      emitEvent GAME_EVENTS.STOP SrcGame EmptyObject >>
      modify (setTimeout 2000 EmitReset)
  | FroggerGame_onLose =>
      emitEvent GAME_EVENTS.STOP SrcGame EmptyObject >>
      modify (setTimeout 2000 EmitReset)
  end.

(** The loop of [emitEvent]: each observer is called and awaited before
    the next one is called. *)
Fixpoint notify (observers : list Observer)
    (event : string) (source : Source) (params : Value) : Task :=
  match observers with
  | [] => skip
  | observer :: rest =>
      modify (record (Enter observer)) >>
      observer_body observer event source params >>
      modify (record (Leave observer)) >>
      notify rest event source params
  end.

End Observers.

(** [emitEvent].  No observer of this program waits for anything but
    further publications, so every [await] in the chain that a publication
    starts is resumed before the page handles its next event: the chain is
    one step of the game.  [fuel] bounds how deep publications may nest
    (an observer that publishes, whose observers publish, ...). *)
Fixpoint emitEvent (fuel : nat) (event : string) (source : Source) (params : Value)
    : Task :=
  match fuel with
  | O => fun _ => None
  | S fuel' => fun w =>
      let w := record (Emit event source params) w in
      match events w !! event with
      | None => Some w
      | Some observers => notify (emitEvent fuel') observers event source params w
      end
  end.

(** ** Enemy *)

Module Enemy.

(** The constructor; [now] is what [Date.now()] returns in it.  The new
    enemy becomes the last child of the root and its two observers are
    registered. *)
Definition new (row : Z) (increase : Q) (now : Z) (w : World) : World :=
  let i := length (enemies w) in
  let this := mkEnemy row (-101) increase now false in
  let w := set_enemies (enemies w ++ [this]) w in
  let w := set_events (EventBus.observeEvent GAME_EVENTS.RESET (Enemy_onReset i) (events w)) w in
  set_events (EventBus.observeEvent GAME_EVENTS.STOP (Enemy_onStop i) (events w)) w.

(** [now] is what [Date.now()] returns. *)
Definition _updatePosition (now : Z) (this : Enemy) : Enemy :=
  if e_stopped this then this
  else
    let timePassed := (inject_Z (now - e_lastUpdate this) / 1000)%Q in
    let x := (e_x this + e_increase this * timePassed)%Q in
    mkEnemy (e_row this)
            (if (x >? 505)%Q then (-101)%Q else x)
            (e_increase this) now (e_stopped this).

(** Of [drawItself] only the update changes the game. *)
Definition drawItself (now : Z) (this : Enemy) : Enemy :=
  _updatePosition now this.

End Enemy.

(** ** Player *)

Module Player.

Definition new (initialSquarePosition : Z * Z) (w : World) : World :=
  let this :=
    mkPlayer (fst initialSquarePosition) (snd initialSquarePosition)
             initialSquarePosition (Str CHARACTERS.BOY) false in
  let w := set_player this w in
  let w := set_events (EventBus.observeEvent GAME_EVENTS.CHANGE_CHARACTER Player_onChangeCharacter (events w)) w in
  let w := set_events (EventBus.observeEvent GAME_EVENTS.RESET Player_onReset (events w)) w in
  set_events (EventBus.observeEvent GAME_EVENTS.STOP Player_onStop (events w)) w.

Definition set_y (y : Z) (this : Player) : Player :=
  mkPlayer (p_x this) y (p_initialSquarePosition this) (p_charImage this) (p_stopped this).
Definition set_x (x : Z) (this : Player) : Player :=
  mkPlayer x (p_y this) (p_initialSquarePosition this) (p_charImage this) (p_stopped this).

Definition _moveUp (fuel : nat) : Task := fun w =>
  if p_stopped (player w) then Some w
  else
    let w :=
      if p_y (player w) >? 0 then set_player (set_y (p_y (player w) - 1) (player w)) w
      else w in
    if p_y (player w) =? 0
    then emitEvent fuel GAME_EVENTS.WIN SrcPlayer EmptyObject w
    else Some w.

Definition _moveDown (this : Player) : Player :=
  if p_stopped this then this
  else if p_y this <? 5 then set_y (p_y this + 1) this else this.

Definition _moveLeft (this : Player) : Player :=
  if p_stopped this then this
  else if p_x this >? 0 then set_x (p_x this - 1) this else this.

Definition _moveRight (this : Player) : Player :=
  if p_stopped this then this
  else if p_x this <? 4 then set_x (p_x this + 1) this else this.

(** The siblings of the player are the enemies. *)
Definition collisionDetection (w : World) : bool :=
  let gameElements := enemies w in
  let myBoundary :=
    GameElementBoundaries.new (player w)
      (GameElementBoundaries.mkThresholds 22 22 9 30) in
  existsb
    (fun element =>
       GameElementBoundaries.checkCollision myBoundary
         (GameElementBoundaries.new element GameElementBoundaries.defaults))
    gameElements.

Definition drawItself (fuel : nat) : Task := fun w =>
  if collisionDetection w && negb (p_stopped (player w))
  then emitEvent fuel GAME_EVENTS.LOSE SrcPlayer EmptyObject w
  else Some w.

End Player.

(** ** FieldElement *)

Module FieldElement.

Definition new (canvas : Q * Q) (w : World) : World :=
  let w := set_root (mkField false false canvas) w in
  let w := set_events (EventBus.observeEvent GAME_EVENTS.RESET FieldElement_onReset (events w)) w in
  let w := set_events (EventBus.observeEvent GAME_EVENTS.WIN FieldElement_onWin (events w)) w in
  set_events (EventBus.observeEvent GAME_EVENTS.LOSE FieldElement_onLose (events w)) w.

End FieldElement.

(** ** FroggerGame *)

Module FroggerGame.

(** The state before any constructor has run: an empty bus, no timer.
    The root and player placeholders are overwritten by the
    constructors. *)
Definition blank : World :=
  mkWorld (mkField false false (0, 0)%Q)
          (mkPlayer 0 0 (0, 0) EmptyObject false)
          [] ∅ [] [].

Definition _createGameElements (now1 now2 now3 now4 : Z) (w : World) : World :=
  let w := FieldElement.new (505, 606)%Q w in
  let w := Player.new (2, 5) w in
  let w := Enemy.new 1 20 now1 w in
  let w := Enemy.new 2 200 now2 w in
  let w := Enemy.new 1 400 now3 w in
  Enemy.new 3 300 now4 w.

Definition _registerGameEvents (w : World) : World :=
  let w := set_events (EventBus.observeEvent GAME_EVENTS.WIN FroggerGame_onWin (events w)) w in
  set_events (EventBus.observeEvent GAME_EVENTS.LOSE FroggerGame_onLose (events w)) w.

(** The constructor; the four arguments are the values of [Date.now()]
    in the four [Enemy] constructors. *)
Definition new (now1 now2 now3 now4 : Z) : World :=
  _registerGameEvents (_createGameElements now1 now2 now3 now4 blank).

(** The first pending timer fires and its [then] callback runs. *)
Definition on_timeout (fuel : nat) : Task := fun w =>
  match timers w with
  | [] => Some w
  | (_, EmitReset) :: rest =>
      emitEvent fuel GAME_EVENTS.RESET SrcGame EmptyObject (set_timers rest w)
  end.

(** What can happen to a running game: a key press, a choice in the
    character box, a timer, and the draw of one child of the root in a
    frame ([EnemyDraw i now]: enemy [i] reads the clock as [now]). *)
Inductive Input :=
| KeyUp | KeyDown | KeyLeft | KeyRight
| ChangeCharacter (value : string)
| TimerFires
| PlayerDraw
| EnemyDraw (i : nat) (now : Z).

Definition step (fuel : nat) (i : Input) : Task :=
  match i with
  | KeyUp => Player._moveUp fuel
  | KeyDown => modify (fun w => set_player (Player._moveDown (player w)) w)
  | KeyLeft => modify (fun w => set_player (Player._moveLeft (player w)) w)
  | KeyRight => modify (fun w => set_player (Player._moveRight (player w)) w)
  | ChangeCharacter value =>
      emitEvent fuel GAME_EVENTS.CHANGE_CHARACTER SrcCombobox (Str value)
  | TimerFires => on_timeout fuel
  | PlayerDraw => Player.drawItself fuel
  | EnemyDraw i now =>
      modify (fun w => set_enemies (alter (Enemy.drawItself now) i (enemies w)) w)
  end.

Fixpoint run (fuel : nat) (inputs : list Input) : Task :=
  match inputs with
  | [] => skip
  | i :: rest => step fuel i >> run fuel rest
  end.

End FroggerGame.

(** ** A plain rectangle as a game element

    [GameElementBoundaries] accepts any object with [getPosition] and
    [getSize]; this one has them as its fields. *)

Record Rect := mkRect {
  r_x : Q;
  r_y : Q;
  r_width : Q;
  r_height : Q
}.

#[export] Instance Rect_GameElement : GameElement Rect := {|
  getPosition := fun r => (r_x r, r_y r);
  getSize := fun r => (r_width r, r_height r)
|}.

(** The same tolerance on the four sides. *)
Definition uniform (t : Q) : GameElementBoundaries.Thresholds :=
  GameElementBoundaries.mkThresholds t t t t.

(** Length of the intersection of the horizontal (vertical) extents of two
    rectangles: by how many pixels they overlap on that axis. *)
Definition overlapX (a b : Rect) : Q :=
  (Qmin (r_x a + r_width a) (r_x b + r_width b) - Qmax (r_x a) (r_x b))%Q.
Definition overlapY (a b : Rect) : Q :=
  (Qmin (r_y a + r_height a) (r_y b + r_height b) - Qmax (r_y a) (r_y b))%Q.

(** The first half of the boundary property as the specification words it:
    with tolerance [t] on all sides, an overlap of exactly [t] on the
    horizontal axis is not a collision. *)
Definition exact_tolerance_overlap_is_no_collision : Prop :=
  forall (t : Q) (a b : Rect),
    (overlapX a b == t)%Q ->
    GameElementBoundaries.checkCollision
      (GameElementBoundaries.new a (uniform t))
      (GameElementBoundaries.new b GameElementBoundaries.defaults) = false.

(** ** Reading a trace *)

(** The publications of [event] in a trace, each with its source and its
    params, in order. *)
Definition published (event : string) (tr : list Action) : list (Source * Value) :=
  flat_map
    (fun a =>
       match a with
       | Emit ev source params => if decide (ev = event) then [(source, params)] else []
       | _ => []
       end)
    tr.

(** The part of a trace that one observer call takes: the call, what
    happened while the observer ran, the end of the awaited call. *)
Definition call (observer : Observer) (inner : list Action) : list Action :=
  Enter observer :: inner ++ [Leave observer].

(** ** The running game *)

(** The registrations the [FroggerGame] constructor leaves on the bus (the
    clock values do not matter for them). *)
Definition game_events : gmap string (list Observer) :=
  events (FroggerGame.new 0 0 0 0).

Definition in_grid (p : Player) : Prop :=
  0 <= p_x p <= 4 /\ 0 <= p_y p <= 5.

(** A state of the game as the constructor wires it: its bus and its four
    enemies. *)
Definition wired (w : World) : Prop :=
  events w = game_events /\ length (enemies w) = 4%nat.

(** What holds of every state the game built by [FroggerGame.new] reaches. *)
Definition running (w : World) : Prop :=
  wired w
  /\ p_initialSquarePosition (player w) = (2, 5)
  /\ in_grid (player w)
  /\ (p_y (player w) = 0 -> p_stopped (player w) = true).

(** A state with the bus of the game, the full-size field, no pending timer
    and an empty trace, for a given player and given enemies. *)
Definition game_with (p : Player) (es : list Enemy) : World :=
  mkWorld (mkField false false (505, 606)%Q) p es game_events [] [].

(** The player and the enemies as [FroggerGame.new] creates them. *)
Definition first_player : Player :=
  mkPlayer 2 5 (2, 5) (Str CHARACTERS.BOY) false.

Definition first_enemies (now1 now2 now3 now4 : Z) : list Enemy :=
  [mkEnemy 1 (-101) 20 now1 false; mkEnemy 2 (-101) 200 now2 false;
   mkEnemy 1 (-101) 400 now3 false; mkEnemy 3 (-101) 300 now4 false].

(** What the five [STOP] observers and the six [RESET] observers of the
    game do to the enemies. *)
Definition stop_enemies (es : list Enemy) : list Enemy :=
  alter Enemy_stop 3%nat (alter Enemy_stop 2%nat
    (alter Enemy_stop 1%nat (alter Enemy_stop 0%nat es))).

Definition reset_enemies (es : list Enemy) : list Enemy :=
  alter Enemy_reset 3%nat (alter Enemy_reset 2%nat
    (alter Enemy_reset 1%nat (alter Enemy_reset 0%nat es))).

(** The trace of one publication of [STOP], [RESET], [WIN] and [LOSE] in
    the game. *)
Definition STOP_trace (source : Source) (params : Value) : list Action :=
  Emit GAME_EVENTS.STOP source params
  :: call Player_onStop [] ++ call (Enemy_onStop 0) [] ++ call (Enemy_onStop 1) []
  ++ call (Enemy_onStop 2) [] ++ call (Enemy_onStop 3) [].

Definition RESET_trace (source : Source) (params : Value) : list Action :=
  Emit GAME_EVENTS.RESET source params
  :: call FieldElement_onReset [] ++ call Player_onReset []
  ++ call (Enemy_onReset 0) [] ++ call (Enemy_onReset 1) []
  ++ call (Enemy_onReset 2) [] ++ call (Enemy_onReset 3) [].

Definition WIN_trace (source : Source) (params : Value) : list Action :=
  Emit GAME_EVENTS.WIN source params
  :: call FieldElement_onWin []
  ++ call FroggerGame_onWin (STOP_trace SrcGame EmptyObject).

Definition LOSE_trace (source : Source) (params : Value) : list Action :=
  Emit GAME_EVENTS.LOSE source params
  :: call FieldElement_onLose []
  ++ call FroggerGame_onLose (STOP_trace SrcGame EmptyObject).

(** ** ImageLoader *)

Module ImageLoader.

(** An [Image] object is known by the order of its creation; [created]
    counts the [new Image()] calls so far. *)
Record t := mk {
  imageCache : gmap string nat;
  created : nat
}.

Definition empty : t := mk ∅ 0.

(** [loadImage] up to its [await]: either the cached image is returned at
    once, or a new image is created and its load is awaited. *)
Inductive Started :=
| Cached (image : nat)
| Loading (url : string) (image : nat).

Definition start (url : string) (this : t) : t * Started :=
  match imageCache this !! url with
  | Some image => (this, Cached image)
  | None => (mk (imageCache this) (S (created this)), Loading url (created this))
  end.

(** [loadImage] after its [await]: the loaded image is put in the cache
    and returned. *)
Definition finish (url : string) (image : nat) (this : t) : t * nat :=
  (mk (<[url := image]> (imageCache this)) (created this), image).

(** A [loadImage] during which no other [loadImage] runs. *)
Definition loadImage (url : string) (this : t) : t * nat :=
  match start url this with
  | (this', Cached image) => (this', image)
  | (this', Loading url' image) => finish url' image this'
  end.

End ImageLoader.

(** ** Drawing *)

(** The calls made on the canvas context; an image is named by the url it
    was loaded from. *)
Inductive Draw :=
| save
| restore
| clearRect (x y w h : Q)
| drawImage (image : Value) (dx dy : Q)
| fillStyle (color : string)
| fillRect (x y w h : Q).

(** The [drawItself] methods with what they paint, [GameElement.draw] and
    one frame of [FroggerGame.run], for a frame in which every image is in
    the cache already, so that no [await] of the frame waits for the
    network and the frame is one step of the game. *)
Module Render.

Definition FieldElement_drawItself (this : FieldElement) : list Draw :=
  let columns := 5 in
  let columnSize := 101%Q in
  let rowSize := 83%Q in
  let stoneBlock := Str "img/stone-block.png" in
  let waterBlock := Str "img/water-block.png" in
  let grassBlock := Str "img/grass-block.png" in
  flat_map
    (fun i : Z =>
       [drawImage waterBlock (inject_Z i * columnSize) 0;
        drawImage stoneBlock (inject_Z i * columnSize) rowSize;
        drawImage stoneBlock (inject_Z i * columnSize) (rowSize * 2);
        drawImage stoneBlock (inject_Z i * columnSize) (rowSize * 3);
        drawImage grassBlock (inject_Z i * columnSize) (rowSize * 4);
        drawImage grassBlock (inject_Z i * columnSize) (rowSize * 5)]%Q)
    (seqZ 0 columns)
  ++ (if drawLose this
      then [fillStyle "#ff000033"; fillRect 0 0 (fst (canvas this)) (snd (canvas this))]
      else if drawWin this
      then [fillStyle "#00ff0033"; fillRect 0 0 (fst (canvas this)) (snd (canvas this))]
      else []).

(** The position and the image are taken before the collision is looked
    for; the image is drawn after a LOSE has been published. *)
Definition Player_drawItself (fuel : nat) (w : World) : option (World * list Draw) :=
  let '(x, y) := getPosition (player w) in
  let playerImage := p_charImage (player w) in
  match Player.drawItself fuel w with
  | Some w' => Some (w', [drawImage playerImage x y])
  | None => None
  end.

Definition Enemy_drawItself (now : Z) (this : Enemy) : Enemy * list Draw :=
  let bugImage := Str "img/enemy-bug.png" in
  let this' := Enemy._updatePosition now this in
  let '(x, y) := getPosition this' in
  (this', [drawImage bugImage x y]).

(** [GameElement.draw] of an element without children. *)
Definition block (drawItself : list Draw) : list Draw :=
  save :: drawItself ++ [restore].

(** The enemies are drawn one after the other; enemy [i] reads [clock i]
    from [Date.now()]. *)
Fixpoint draw_enemies (clock : nat -> Z) (i : nat) (es : list Enemy)
    : list Enemy * list Draw :=
  match es with
  | [] => ([], [])
  | e :: rest =>
      let '(e', cmds) := Enemy_drawItself (clock i) e in
      let '(rest', cmds') := draw_enemies clock (S i) rest in
      (e' :: rest', block cmds ++ cmds')
  end.

(** [GameElement.draw] of the root: the field itself, then its children,
    the player first. *)
Definition draw (fuel : nat) (clock : nat -> Z) (w : World) : option (World * list Draw) :=
  let field := block (FieldElement_drawItself (root w)) in
  match Player_drawItself fuel w with
  | None => None
  | Some (w1, cmds) =>
      let '(es, cmds') := draw_enemies clock 0 (enemies w1) in
      Some (set_enemies es w1, field ++ block cmds ++ cmds')
  end.

(** [FroggerGame.run], one frame. *)
Definition run (fuel : nat) (clock : nat -> Z) (w : World) : option (World * list Draw) :=
  let clear := clearRect 0 0 (fst (canvas (root w))) (snd (canvas (root w))) in
  match draw fuel clock w with
  | None => None
  | Some (w', cmds) => Some (w', clear :: cmds)
  end.

(** How many [save]s are open after a list of calls, if no [restore] comes
    without a [save] before it. *)
Fixpoint depth (d : nat) (cmds : list Draw) : option nat :=
  match cmds with
  | [] => Some d
  | save :: rest => depth (S d) rest
  | restore :: rest => match d with O => None | S d' => depth d' rest end
  | _ :: rest => depth d rest
  end.

End Render.

(** ** More about the running game *)


(** The same game but for the trace. *)
Definition same_game (w1 w2 : World) : Prop :=
  root w1 = root w2 /\ player w1 = player w2 /\ enemies w1 = enemies w2
  /\ events w1 = events w2 /\ timers w1 = timers w2.

(** An enemy hits the player: it is on the player's row and its left edge
    is at most 79 pixels from the player's. *)
Definition hits (p : Player) (e : Enemy) : Prop :=
  e_row e = p_y p /\ (Qabs (e_x e - inject_Z (p_x p * 101)) <= 79)%Q.

(** What holds of every state the game reaches, besides [running]: the
    game is either going, with no timer pending and no overlay, or frozen
    as a whole, with one timer pending and one overlay. *)
Definition steady (w : World) : Prop :=
  running w
  /\ canvas (root w) = (505, 606)%Q
  /\ map e_row (enemies w) = [1; 2; 1; 3]
  /\ map e_increase (enemies w) = [20; 200; 400; 300]%Q
  /\ Forall (fun e => (e_x e <= 505)%Q /\ e_stopped e = p_stopped (player w)) (enemies w)
  /\ timers w = (if p_stopped (player w) then [(2000, EmitReset)] else [])
  /\ (drawWin (root w) || drawLose (root w)) = p_stopped (player w)
  /\ (drawWin (root w) && drawLose (root w)) = false
  /\ exists url, p_charImage (player w) = Str url.

(** ** The numbers as JavaScript has them

    Above, a number is an exact rational.  That is what the code computes
    as long as every value it forms is a whole number of moderate size,
    which doubles hold exactly; it is not when a value has to be rounded.
    Here are the position update and the collision tests on IEEE doubles,
    every operation rounded as in the code. *)

Module Double.

(** A whole number as a double (exact below 2^53). *)
Fixpoint of_pos (p : positive) : float :=
  match p with
  | xH => 1
  | xO p => 2 * of_pos p
  | xI p => 2 * of_pos p + 1
  end%float.

Definition of_Z (n : Z) : float :=
  match n with
  | Z0 => 0
  | Zpos p => of_pos p
  | Zneg p => - of_pos p
  end%float.

Record Enemy := mkEnemy {
  e_row : float;
  e_x : float;
  e_increase : float;
  e_lastUpdate : float;
  e_stopped : bool
}.

(** [now] is what [Date.now()] returns; [this.x > 505] is [505 < this.x]. *)
Definition _updatePosition (now : float) (this : Enemy) : Enemy :=
  if e_stopped this then this
  else
    let timePassed := ((now - e_lastUpdate this) / 1000)%float in
    let x := (e_x this + e_increase this * timePassed)%float in
    mkEnemy (e_row this)
            (if (505 <? x)%float then (-101)%float else x)
            (e_increase this) now (e_stopped this).

Record Boundaries := mk {
  topLeft : float * float;
  topRight : float * float;
  bottomLeft : float * float;
  bottomRight : float * float;
  leftThreshold : float;
  rightThreshold : float;
  topThreshold : float;
  bottomThreshold : float
}.

(** The constructor, given what [getPosition] and [getSize] return. *)
Definition new (position size : float * float)
    (leftThreshold rightThreshold topThreshold bottomThreshold : float) : Boundaries :=
  let '(x, y) := position in
  let '(width, height) := size in
  {| topLeft := (x, y);
     topRight := (x + width, y)%float;
     bottomLeft := (x, y + height)%float;
     bottomRight := (x + width, y + height)%float;
     leftThreshold := leftThreshold;
     rightThreshold := rightThreshold;
     topThreshold := topThreshold;
     bottomThreshold := bottomThreshold |}.

(** [a >= b] is written [b <=? a]. *)
Definition _checkTopRightCollision (this : Boundaries) (bl tr : float * float) : bool :=
  let '(blX, blY) := bl in
  let '(trX, trY) := tr in
  let '(localTrX, localTrY) := topRight this in
  let xCollision := ((blX + rightThreshold this <=? localTrX) && (localTrX <=? trX))%float in
  let yCollision := ((trY <=? localTrY) && (localTrY <=? blY - topThreshold this))%float in
  xCollision && yCollision.

Definition _checkTopLeftCollision (this : Boundaries) (br tl : float * float) : bool :=
  let '(brX, brY) := br in
  let '(tlX, tlY) := tl in
  let '(localTlX, localTlY) := topLeft this in
  let xCollision := ((tlX <=? localTlX) && (localTlX <=? brX - leftThreshold this))%float in
  let yCollision := ((tlY <=? localTlY) && (localTlY <=? brY - topThreshold this))%float in
  xCollision && yCollision.

Definition _checkBottomRightCollision (this : Boundaries) (br tl : float * float) : bool :=
  let '(brX, brY) := br in
  let '(tlX, tlY) := tl in
  let '(localBrX, localBrY) := bottomRight this in
  let xCollision := ((tlX + rightThreshold this <=? localBrX) && (localBrX <=? brX))%float in
  let yCollision := ((tlY + bottomThreshold this <=? localBrY) && (localBrY <=? brY))%float in
  xCollision && yCollision.

Definition _checkBottomLeftCollision (this : Boundaries) (bl tr : float * float) : bool :=
  let '(blX, blY) := bl in
  let '(trX, trY) := tr in
  let '(localBlx, localBly) := bottomLeft this in
  let xCollision := ((blX <=? localBlx) && (localBlx <=? trX - leftThreshold this))%float in
  let yCollision := ((trY + bottomThreshold this <=? localBly) && (localBly <=? blY))%float in
  xCollision && yCollision.

Definition checkCollision (this gameElementBoundary : Boundaries) : bool :=
  _checkTopRightCollision this (bottomLeft gameElementBoundary) (topRight gameElementBoundary)
  || _checkTopLeftCollision this (bottomRight gameElementBoundary) (topLeft gameElementBoundary)
  || _checkBottomRightCollision this (bottomRight gameElementBoundary) (topLeft gameElementBoundary)
  || _checkBottomLeftCollision this (bottomLeft gameElementBoundary) (topRight gameElementBoundary).

End Double.

(** ** Whole pixels *)

(** A whole number that is small enough for every sum, difference and
    product by 101 or 83 that the code forms from such numbers to be a
    whole number below 2^53, which a double holds exactly: on such values
    the code computes what the exact definitions above compute. *)
Definition exact (n : Z) : Prop := - 2 ^ 40 <= n <= 2 ^ 40.

(** A rectangle on whole pixels. *)
Definition pixels (x y width height : Z) : Rect :=
  mkRect (inject_Z x) (inject_Z y) (inject_Z width) (inject_Z height).

(** The whole numbers [lo], [lo + 1], ..., [lo + n - 1]. *)
Definition span (lo : Z) (n : nat) : list Z :=
  map (fun i => lo + Z.of_nat i) (seq 0 n).

(** For a 101x83 rectangle at the origin with tolerance [t] and a copy of
    it at [(dx, dy)]: the doubles of the code and the exact definitions
    give the same answer. *)
Definition moved_copy_agrees (t dx dy : Z) : bool :=
  Bool.eqb
    (Double.checkCollision
       (Double.new (0, 0)%float (101, 83)%float
          (Double.of_Z t) (Double.of_Z t) (Double.of_Z t) (Double.of_Z t))
       (Double.new (Double.of_Z dx, Double.of_Z dy) (101, 83)%float 0 0 0 0))
    (GameElementBoundaries.checkCollision
       (GameElementBoundaries.new (pixels 0 0 101 83) (uniform (inject_Z t)))
       (GameElementBoundaries.new (pixels dx dy 101 83) GameElementBoundaries.defaults)).

(** The same for the player on square [(x, y)], with the thresholds of
    [collisionDetection], and an enemy on [row] at the whole pixel [n];
    the positions are those of [getPosition]. *)
Definition player_enemy_agrees (x y row n : Z) : bool :=
  Bool.eqb
    (Double.checkCollision
       (Double.new (Double.of_Z x * 101, Double.of_Z y * 83 - 25)%float (101, 83)%float
          22 22 9 30)
       (Double.new (Double.of_Z n, (Double.of_Z row * 83 - 25)%float) (101, 83)%float
          0 0 0 0))
    (GameElementBoundaries.checkCollision
       (GameElementBoundaries.new (mkPlayer x y (2, 5) (Str CHARACTERS.BOY) false)
          (GameElementBoundaries.mkThresholds 22 22 9 30))
       (GameElementBoundaries.new (mkEnemy row (inject_Z n) 0 0 false)
          GameElementBoundaries.defaults)).

(** The update of the position as the specification words it, read on
    whole numbers, which doubles hold exactly: for an enemy at [x] with
    speed [increase], updated [now - lastUpdate] milliseconds after its
    last update, the new x is -101 when [x + increase * N] exceeds 505, [N]
    the seconds passed, and is that sum otherwise (said here of the sums
    that are whole numbers [m]). *)
Definition update_as_specified : Prop :=
  forall x increase lastUpdate now m : Z,
    let N := (inject_Z (now - lastUpdate) / 1000)%Q in
    let moved := (inject_Z x + inject_Z increase * N)%Q in
    let this' :=
      Double._updatePosition (Double.of_Z now)
        (Double.mkEnemy (Double.of_Z 1) (Double.of_Z x) (Double.of_Z increase)
           (Double.of_Z lastUpdate) false) in
    ((505 < moved)%Q -> Double.e_x this' = (-101)%float)
    /\ ((moved == inject_Z m)%Q -> m <= 505 -> Double.e_x this' = Double.of_Z m).

(** ** The publication in the words of the specification *)

(** Every observer registered for the event is invoked, in the order of
    registration: the first on the state in which the publication starts,
    each next one on the state in which the one before it has ended; an
    observer that is invoked runs its body to the end; the publication ends
    in the state in which the last observer has ended. *)
Inductive fan_out (emit : string -> Source -> Value -> Task)
    (event : string) (source : Source) (params : Value)
    : list Observer -> World -> World -> Prop :=
| fan_out_done (w : World) :
    fan_out emit event source params [] w w
| fan_out_next (observer : Observer) (rest : list Observer) (w w1 w' : World) :
    observer_body emit observer event source params (record (Enter observer) w) = Some w1 ->
    fan_out emit event source params rest (record (Leave observer) w1) w' ->
    fan_out emit event source params (observer :: rest) w w'.

(** ** Facts about the comparisons *)

Lemma Qleb_iff (a b : Q) : Qleb a b = true <-> (a <= b)%Q.
Proof. unfold Qleb. apply Qle_bool_iff. Qed.

Lemma Qgtb_iff (a b : Q) : Qgtb a b = true <-> (b < a)%Q.
Proof. unfold Qgtb, Qlt. apply Z.ltb_lt. Qed.

Lemma Qgtb_false_iff (a b : Q) : Qgtb a b = false <-> (a <= b)%Q.
Proof.
  unfold Qgtb, Qle. rewrite Z.ltb_ge. reflexivity.
Qed.

Lemma Qleb_false_iff (a b : Q) : Qleb a b = false <-> (b < a)%Q.
Proof.
  rewrite <- not_true_iff_false, Qleb_iff. split.
  - apply Qnot_le_lt.
  - apply Qlt_not_le.
Qed.

(** Turn a goal or hypothesis made of the boolean comparisons into the
    corresponding inequalities. *)
Ltac to_Q :=
  rewrite ?andb_true_iff, ?orb_true_iff, ?Qleb_iff, ?Qgtb_iff in *.

Module Corner.
Import GameElementBoundaries.

(** Each directional test, for two rectangles [a] (this) and [b]. *)
Lemma topRight_iff (a b : Rect) (o : Thresholds) :
  _checkTopRightCollision (new a o) (bottomLeft (new b defaults)) (topRight (new b defaults)) = true
  <-> (r_x b + opt_rightThreshold o <= r_x a + r_width a
       /\ r_x a + r_width a <= r_x b + r_width b
       /\ r_y b <= r_y a
       /\ r_y a <= r_y b + r_height b - opt_topThreshold o)%Q.
Proof.
  destruct a, b, o. cbv [new _checkTopRightCollision getPosition getSize Rect_GameElement
    r_x r_y r_width r_height bottomLeft topRight rightThreshold topThreshold
    opt_rightThreshold opt_topThreshold].
  to_Q. tauto.
Qed.

Lemma topLeft_iff (a b : Rect) (o : Thresholds) :
  _checkTopLeftCollision (new a o) (bottomRight (new b defaults)) (topLeft (new b defaults)) = true
  <-> (r_x b <= r_x a
       /\ r_x a <= r_x b + r_width b - opt_leftThreshold o
       /\ r_y b <= r_y a
       /\ r_y a <= r_y b + r_height b - opt_topThreshold o)%Q.
Proof.
  destruct a, b, o. cbv [new _checkTopLeftCollision getPosition getSize Rect_GameElement
    r_x r_y r_width r_height bottomRight topLeft leftThreshold topThreshold
    opt_leftThreshold opt_topThreshold].
  to_Q. tauto.
Qed.

Lemma bottomRight_iff (a b : Rect) (o : Thresholds) :
  _checkBottomRightCollision (new a o) (bottomRight (new b defaults)) (topLeft (new b defaults)) = true
  <-> (r_x b + opt_rightThreshold o <= r_x a + r_width a
       /\ r_x a + r_width a <= r_x b + r_width b
       /\ r_y b + opt_bottomThreshold o <= r_y a + r_height a
       /\ r_y a + r_height a <= r_y b + r_height b)%Q.
Proof.
  destruct a, b, o. cbv [new _checkBottomRightCollision getPosition getSize Rect_GameElement
    r_x r_y r_width r_height bottomRight topLeft rightThreshold bottomThreshold
    opt_rightThreshold opt_bottomThreshold].
  to_Q. tauto.
Qed.

Lemma bottomLeft_iff (a b : Rect) (o : Thresholds) :
  _checkBottomLeftCollision (new a o) (bottomLeft (new b defaults)) (topRight (new b defaults)) = true
  <-> (r_x b <= r_x a
       /\ r_x a <= r_x b + r_width b - opt_leftThreshold o
       /\ r_y b + opt_bottomThreshold o <= r_y a + r_height a
       /\ r_y a + r_height a <= r_y b + r_height b)%Q.
Proof.
  destruct a, b, o. cbv [new _checkBottomLeftCollision getPosition getSize Rect_GameElement
    r_x r_y r_width r_height bottomLeft topRight leftThreshold bottomThreshold
    opt_leftThreshold opt_bottomThreshold].
  to_Q. tauto.
Qed.

Lemma checkCollision_iff (a b : Rect) (o : Thresholds) :
  checkCollision (new a o) (new b defaults) = true
  <-> _checkTopRightCollision (new a o) (bottomLeft (new b defaults)) (topRight (new b defaults)) = true
      \/ _checkTopLeftCollision (new a o) (bottomRight (new b defaults)) (topLeft (new b defaults)) = true
      \/ _checkBottomRightCollision (new a o) (bottomRight (new b defaults)) (topLeft (new b defaults)) = true
      \/ _checkBottomLeftCollision (new a o) (bottomLeft (new b defaults)) (topRight (new b defaults)) = true.
Proof.
  unfold checkCollision. rewrite !orb_true_iff. tauto.
Qed.

End Corner.

(** ** Collision predicate *)

(** [b] is [a] moved by [(dx, dy)]: a rectangle of the same size. *)
Lemma overlapX_moved (a : Rect) (dx dy : Q) :
  (overlapX a (mkRect (r_x a + dx) (r_y a + dy) (r_width a) (r_height a))
   == r_width a - Qabs dx)%Q.
Proof.
  unfold overlapX. cbn [r_x r_y r_width r_height].
  destruct (Q.min_spec (r_x a + r_width a) (r_x a + dx + r_width a)) as [[? Hm]|[? Hm]];
  destruct (Q.max_spec (r_x a) (r_x a + dx)) as [[? HM]|[? HM]];
  rewrite Hm, HM;
  apply Qabs_case with (x := dx); intros; lra.
Qed.

Lemma overlapY_moved (a : Rect) (dx dy : Q) :
  (overlapY a (mkRect (r_x a + dx) (r_y a + dy) (r_width a) (r_height a))
   == r_height a - Qabs dy)%Q.
Proof.
  unfold overlapY. cbn [r_x r_y r_width r_height].
  destruct (Q.min_spec (r_y a + r_height a) (r_y a + dy + r_height a)) as [[? Hm]|[? Hm]];
  destruct (Q.max_spec (r_y a) (r_y a + dy)) as [[? HM]|[? HM]];
  rewrite Hm, HM;
  apply Qabs_case with (x := dy); intros; lra.
Qed.

(** C1, as the specification states it, fails: with tolerance 22 on all
    sides, two 101x83 rectangles on the same row that overlap by exactly 22
    pixels horizontally do collide. *)
Lemma C1_exact_overlap_collides : ~ exact_tolerance_overlap_is_no_collision.
Proof.
  intros claim.
  specialize (claim 22%Q (mkRect 0 0 101 83) (mkRect 79 0 101 83)).
  assert (Hov : (overlapX (mkRect 0 0 101 83) (mkRect 79 0 101 83) == 22)%Q)
    by (vm_compute; reflexivity).
  specialize (claim Hov). vm_compute in claim. discriminate claim.
Qed.

(** The boundary in exact arithmetic: with the same tolerance [t] on all
    four sides each directional test passes exactly when the other
    rectangle [b] covers the corresponding corner of [a] and reaches into
    [a] by at least [t] on both sides of that corner, and a rectangle and a
    copy of it moved by [(dx, dy)] collide exactly when they overlap by at
    least [t] on both axes.  The code computes in doubles; this is what it
    computes when no sum or difference has to be rounded. *)
Lemma tolerance_boundary_rational (a b : Rect) (t dx dy : Q) :
  let A := GameElementBoundaries.new a (uniform t) in
  let B := GameElementBoundaries.new b GameElementBoundaries.defaults in
  let a' := mkRect (r_x a + dx) (r_y a + dy) (r_width a) (r_height a) in
  (GameElementBoundaries._checkTopRightCollision A
     (GameElementBoundaries.bottomLeft B) (GameElementBoundaries.topRight B) = true
   <-> (t <= (r_x a + r_width a) - r_x b /\ r_x a + r_width a <= r_x b + r_width b
        /\ t <= (r_y b + r_height b) - r_y a /\ r_y b <= r_y a)%Q)
  /\ (GameElementBoundaries._checkTopLeftCollision A
        (GameElementBoundaries.bottomRight B) (GameElementBoundaries.topLeft B) = true
      <-> (t <= (r_x b + r_width b) - r_x a /\ r_x b <= r_x a
           /\ t <= (r_y b + r_height b) - r_y a /\ r_y b <= r_y a)%Q)
  /\ (GameElementBoundaries._checkBottomRightCollision A
        (GameElementBoundaries.bottomRight B) (GameElementBoundaries.topLeft B) = true
      <-> (t <= (r_x a + r_width a) - r_x b /\ r_x a + r_width a <= r_x b + r_width b
           /\ t <= (r_y a + r_height a) - r_y b /\ r_y a + r_height a <= r_y b + r_height b)%Q)
  /\ (GameElementBoundaries._checkBottomLeftCollision A
        (GameElementBoundaries.bottomLeft B) (GameElementBoundaries.topRight B) = true
      <-> (t <= (r_x b + r_width b) - r_x a /\ r_x b <= r_x a
           /\ t <= (r_y a + r_height a) - r_y b /\ r_y a + r_height a <= r_y b + r_height b)%Q)
  /\ (GameElementBoundaries.checkCollision A
        (GameElementBoundaries.new a' GameElementBoundaries.defaults) = true
      <-> (t <= overlapX a a' /\ t <= overlapY a a')%Q).
Proof.
  intros A B a'. subst A B.
  split; [|split; [|split; [|split]]].
  - rewrite Corner.topRight_iff. cbn. intuition lra.
  - rewrite Corner.topLeft_iff. cbn. intuition lra.
  - rewrite Corner.bottomRight_iff. cbn. intuition lra.
  - rewrite Corner.bottomLeft_iff. cbn. intuition lra.
  - subst a'. rewrite overlapX_moved, overlapY_moved.
    rewrite Corner.checkCollision_iff, Corner.topRight_iff, Corner.topLeft_iff,
      Corner.bottomRight_iff, Corner.bottomLeft_iff.
    cbn [r_x r_y r_width r_height uniform
         GameElementBoundaries.opt_leftThreshold GameElementBoundaries.opt_rightThreshold
         GameElementBoundaries.opt_topThreshold GameElementBoundaries.opt_bottomThreshold].
    split.
    + intros H.
      apply Qabs_case with (x := dx); apply Qabs_case with (x := dy); intros; lra.
    + apply Qabs_case with (x := dx); apply Qabs_case with (x := dy); intros; lra.
Qed.

(** Whole numbers in place of rationals. *)
Ltac to_Z :=
  cbn [pixels r_x r_y r_width r_height uniform
       GameElementBoundaries.opt_leftThreshold GameElementBoundaries.opt_rightThreshold
       GameElementBoundaries.opt_topThreshold GameElementBoundaries.opt_bottomThreshold];
  unfold Qminus;
  rewrite <- ?inject_Z_opp, <- ?inject_Z_plus, <- ?Zle_Qle.

(** In doubles, with tolerance 22 and 101x83 rectangles on one row: whole
    pixel positions behave as in exact arithmetic (an overlap of 21 is no
    collision, overlaps of 22 and 23 are), but a position just left of a
    whole pixel is rounded: at x = 22 - 2^-48 the other rectangle reaches
    less than 22 pixels into this one, and the sum x + 101 is rounded to
    123, so that the top-left test passes. *)
Lemma tolerance_boundary_in_doubles :
  let A := Double.new (0, 0)%float (101, 83)%float 22 22 22 22 in
  let B (x : float) := Double.new (x, 0%float) (101, 83)%float 0 0 0 0 in
  Double.checkCollision A (B 80%float) = false
  /\ Double.checkCollision A (B 79%float) = true
  /\ Double.checkCollision A (B 78%float) = true
  /\ (let x := (22 - 0x1p-48)%float in
      (x <? 22)%float = true
      /\ Double.checkCollision
           (Double.new (101, 0)%float (101, 83)%float 22 22 22 22) (B x) = true).
Proof. vm_compute. repeat split. Qed.

(** On whole pixels the doubles of the code and the exact definitions
    agree: checked for tolerances 0, 9, 22 and 30 and every whole-pixel
    offset of the copy by -110..110 across and -90..90 down. *)
Lemma whole_pixels_in_doubles :
  forallb
    (fun t =>
       forallb
         (fun dx => forallb (fun dy => moved_copy_agrees t dx dy) (span (-90) 181))
         (span (-110) 221))
    [0; 9; 22; 30] = true.
Proof. vm_compute. reflexivity. Qed.

(** C1 (amended): for rectangles whose positions and sizes, and the
    tolerance [t], are whole numbers of pixels (of a size at which the
    doubles of the code are exact), every comparison against the tolerance
    is non-strict.  Each of the four directional tests passes exactly when
    the other rectangle covers the corresponding corner of this one and
    reaches into it by at least [t] pixels on the horizontal and on the
    vertical side of that corner.  Hence a rectangle and a copy of it
    moved by [(dx, dy)] collide exactly when they overlap by at least [t]
    pixels on both axes: an overlap of exactly [t] (or [t+1]) registers,
    one of [t-1] does not. *)
Theorem C1_pixel_tolerance_boundary (ax ay aw ah bx bY bw bh t dx dy : Z) :
  exact ax -> exact ay -> exact aw -> exact ah ->
  exact bx -> exact bY -> exact bw -> exact bh ->
  exact t -> exact dx -> exact dy ->
  let A := GameElementBoundaries.new (pixels ax ay aw ah) (uniform (inject_Z t)) in
  let B := GameElementBoundaries.new (pixels bx bY bw bh) GameElementBoundaries.defaults in
  let A' :=
    GameElementBoundaries.new (pixels (ax + dx) (ay + dy) aw ah)
      GameElementBoundaries.defaults in
  (GameElementBoundaries._checkTopRightCollision A
     (GameElementBoundaries.bottomLeft B) (GameElementBoundaries.topRight B) = true
   <-> t <= (ax + aw) - bx /\ ax + aw <= bx + bw /\ t <= (bY + bh) - ay /\ bY <= ay)
  /\ (GameElementBoundaries._checkTopLeftCollision A
        (GameElementBoundaries.bottomRight B) (GameElementBoundaries.topLeft B) = true
      <-> t <= (bx + bw) - ax /\ bx <= ax /\ t <= (bY + bh) - ay /\ bY <= ay)
  /\ (GameElementBoundaries._checkBottomRightCollision A
        (GameElementBoundaries.bottomRight B) (GameElementBoundaries.topLeft B) = true
      <-> t <= (ax + aw) - bx /\ ax + aw <= bx + bw
          /\ t <= (ay + ah) - bY /\ ay + ah <= bY + bh)
  /\ (GameElementBoundaries._checkBottomLeftCollision A
        (GameElementBoundaries.bottomLeft B) (GameElementBoundaries.topRight B) = true
      <-> t <= (bx + bw) - ax /\ bx <= ax /\ t <= (ay + ah) - bY /\ ay + ah <= bY + bh)
  /\ (GameElementBoundaries.checkCollision A A' = true
      <-> t <= aw - Z.abs dx /\ t <= ah - Z.abs dy).
Proof.
  intros _ _ _ _ _ _ _ _ _ _ _ A B A'. subst A B A'.
  split; [|split; [|split; [|split]]].
  - rewrite Corner.topRight_iff. to_Z. lia.
  - rewrite Corner.topLeft_iff. to_Z. lia.
  - rewrite Corner.bottomRight_iff. to_Z. lia.
  - rewrite Corner.bottomLeft_iff. to_Z. lia.
  - rewrite Corner.checkCollision_iff, Corner.topRight_iff, Corner.topLeft_iff,
      Corner.bottomRight_iff, Corner.bottomLeft_iff.
    to_Z. lia.
Qed.

Lemma C1_pixel_tolerance_boundary_witness :
  GameElementBoundaries.checkCollision
    (GameElementBoundaries.new (pixels 0 0 101 83) (uniform (inject_Z 22)))
    (GameElementBoundaries.new (pixels (0 + 79) (0 + 0) 101 83) GameElementBoundaries.defaults)
  = true
  /\ GameElementBoundaries.checkCollision
       (GameElementBoundaries.new (pixels 0 0 101 83) (uniform (inject_Z 22)))
       (GameElementBoundaries.new (pixels (0 + 80) (0 + 0) 101 83) GameElementBoundaries.defaults)
     <> true.
Proof.
  split.
  - apply (C1_pixel_tolerance_boundary 0 0 101 83 0 0 101 83 22 79 0);
      unfold exact; lia.
  - intros H.
    apply (C1_pixel_tolerance_boundary 0 0 101 83 0 0 101 83 22 80 0) in H;
      unfold exact; lia.
Defined.

(** C9: with all four thresholds 0, an element of non-negative width and
    height collides with an identical element at the same position. *)
Theorem C9_reflexive_zero_thresholds {T} `{GameElement T} (e : T) :
  (0 <= fst (getSize e))%Q ->
  (0 <= snd (getSize e))%Q ->
  GameElementBoundaries.checkCollision
    (GameElementBoundaries.new e GameElementBoundaries.defaults)
    (GameElementBoundaries.new e GameElementBoundaries.defaults) = true.
Proof.
  intros Hw Hh.
  unfold GameElementBoundaries.new.
  destruct (getPosition e) as [x y], (getSize e) as [width height].
  cbn [fst snd] in Hw, Hh.
  cbv [GameElementBoundaries.checkCollision GameElementBoundaries._checkTopRightCollision
       GameElementBoundaries.bottomLeft GameElementBoundaries.topRight
       GameElementBoundaries.rightThreshold GameElementBoundaries.topThreshold
       GameElementBoundaries.defaults
       GameElementBoundaries.opt_rightThreshold GameElementBoundaries.opt_topThreshold].
  rewrite !orb_true_iff. left. left. left.
  to_Q. lra.
Qed.

Lemma C9_reflexive_zero_thresholds_witness :
  GameElementBoundaries.checkCollision
    (GameElementBoundaries.new (mkRect 202 390 101 83) GameElementBoundaries.defaults)
    (GameElementBoundaries.new (mkRect 202 390 101 83) GameElementBoundaries.defaults) = true.
Proof.
  apply (C9_reflexive_zero_thresholds (mkRect 202 390 101 83)); cbn; lra.
Defined.

(** C8: the fourth (bottom-left) test, as [checkCollision] calls it, holds
    exactly when the other boundary's bottom-left and top-right corners
    enclose this boundary's bottom-left corner, horizontally with
    [leftThreshold] taken off the other's right edge and vertically with
    [bottomThreshold] added to the other's top edge; [rightThreshold] (and
    [topThreshold]) have no influence on it. *)
Theorem C8_bottom_left_thresholds (this other : GameElementBoundaries.t) (right' top' : Q) :
  let blX := fst (GameElementBoundaries.bottomLeft other) in
  let blY := snd (GameElementBoundaries.bottomLeft other) in
  let trX := fst (GameElementBoundaries.topRight other) in
  let trY := snd (GameElementBoundaries.topRight other) in
  let localBlx := fst (GameElementBoundaries.bottomLeft this) in
  let localBly := snd (GameElementBoundaries.bottomLeft this) in
  (GameElementBoundaries._checkBottomLeftCollision this
     (GameElementBoundaries.bottomLeft other) (GameElementBoundaries.topRight other) = true
   <-> (blX <= localBlx /\ localBlx <= trX - GameElementBoundaries.leftThreshold this
        /\ trY + GameElementBoundaries.bottomThreshold this <= localBly /\ localBly <= blY)%Q)
  /\ GameElementBoundaries._checkBottomLeftCollision
       (GameElementBoundaries.mk
          (GameElementBoundaries.topLeft this) (GameElementBoundaries.topRight this)
          (GameElementBoundaries.bottomLeft this) (GameElementBoundaries.bottomRight this)
          (GameElementBoundaries.leftThreshold this) right' top'
          (GameElementBoundaries.bottomThreshold this))
       (GameElementBoundaries.bottomLeft other) (GameElementBoundaries.topRight other)
     = GameElementBoundaries._checkBottomLeftCollision this
         (GameElementBoundaries.bottomLeft other) (GameElementBoundaries.topRight other)
  /\ (GameElementBoundaries.checkCollision this other = true
      <-> GameElementBoundaries._checkTopRightCollision this
            (GameElementBoundaries.bottomLeft other) (GameElementBoundaries.topRight other) = true
          \/ GameElementBoundaries._checkTopLeftCollision this
            (GameElementBoundaries.bottomRight other) (GameElementBoundaries.topLeft other) = true
          \/ GameElementBoundaries._checkBottomRightCollision this
            (GameElementBoundaries.bottomRight other) (GameElementBoundaries.topLeft other) = true
          \/ GameElementBoundaries._checkBottomLeftCollision this
            (GameElementBoundaries.bottomLeft other) (GameElementBoundaries.topRight other) = true).
Proof.
  destruct this as [tl tr [lx ly] br l r t b], other as [tl' [trX trY] [blX blY] br' l' r' t' b'].
  cbn [GameElementBoundaries.bottomLeft GameElementBoundaries.topRight
       GameElementBoundaries.leftThreshold GameElementBoundaries.bottomThreshold
       GameElementBoundaries.topLeft GameElementBoundaries.bottomRight fst snd].
  split; [|split].
  - cbv [GameElementBoundaries._checkBottomLeftCollision
         GameElementBoundaries.bottomLeft GameElementBoundaries.leftThreshold
         GameElementBoundaries.bottomThreshold].
    to_Q. tauto.
  - reflexivity.
  - unfold GameElementBoundaries.checkCollision. rewrite !orb_true_iff. tauto.
Qed.

(** The earlier revision of the fourth test is a different predicate: it
    lets [rightThreshold] decide. *)
Lemma bottomLeft_earlier_differs :
  let this := GameElementBoundaries.new (mkRect 0 0 101 83) (GameElementBoundaries.mkThresholds 0 200 0 0) in
  let other := GameElementBoundaries.new (mkRect 0 0 101 83) GameElementBoundaries.defaults in
  GameElementBoundaries._checkBottomLeftCollision this
    (GameElementBoundaries.bottomLeft other) (GameElementBoundaries.topRight other) = true
  /\ GameElementBoundaries._checkBottomLeftCollision_earlier this
    (GameElementBoundaries.bottomLeft other) (GameElementBoundaries.topRight other) = false.
Proof. split; vm_compute; reflexivity. Qed.

(** ** Obstacle motion *)

(** C4, as the specification states it, fails on the code, which computes
    in doubles: an enemy at x = 7 with speed 200, updated 2490 ms after its
    last update, has x + speed * N = 505 exactly, which does not exceed
    505; the code rounds 2490 / 1000 and gets 505.00000000000006 for the
    sum, which does, and puts the enemy back to -101. *)
Lemma C4_exact_sum_505_is_wrapped : ~ update_as_specified.
Proof.
  intros claim.
  destruct (claim 7 200 0 2490 505) as [_ Hsum].
  assert (H : Double.e_x
                (Double._updatePosition (Double.of_Z 2490)
                   (Double.mkEnemy (Double.of_Z 1) (Double.of_Z 7) (Double.of_Z 200)
                      (Double.of_Z 0) false))
              = Double.of_Z 505).
  { apply Hsum; [vm_compute; reflexivity|lia]. }
  vm_compute in H. discriminate H.
Qed.

(** C4 (amended): the update of an enemy that is not stopped computes, in
    doubles and rounding each step, the seconds passed
    [(now - lastUpdate) / 1000], the product with the speed and the sum
    with x; the new x is that double, unless it exceeds 505, in which case
    the new x is -101.  The wrap is decided on the rounded sum.  The clock
    value is kept as the time of the last update; row, speed and the freeze
    flag stay. *)
Theorem C4_position_update_in_doubles (now : float) (this : Double.Enemy) :
  Double.e_stopped this = false ->
  let N := ((now - Double.e_lastUpdate this) / 1000)%float in
  let moved := (Double.e_x this + Double.e_increase this * N)%float in
  let this' := Double._updatePosition now this in
  ((505 <? moved)%float = true /\ Double.e_x this' = (-101)%float
   \/ (505 <? moved)%float = false /\ Double.e_x this' = moved)
  /\ Double.e_lastUpdate this' = now
  /\ Double.e_increase this' = Double.e_increase this
  /\ Double.e_row this' = Double.e_row this
  /\ Double.e_stopped this' = false.
Proof.
  intros Hs N moved this'. subst this'.
  unfold Double._updatePosition. rewrite Hs.
  fold N. fold moved.
  cbn [Double.e_x Double.e_lastUpdate Double.e_increase Double.e_row Double.e_stopped].
  split; [|auto].
  destruct (505 <? moved)%float; [left|right]; auto.
Qed.

Lemma C4_position_update_in_doubles_witness :
  Double.e_x (Double._updatePosition 1500 (Double.mkEnemy 2 100 200 1000 false)) = 200%float
  /\ Double.e_x (Double._updatePosition 2500 (Double.mkEnemy 1 100 400 1000 false))
     = (-101)%float
  /\ Double.e_x (Double._updatePosition 2490 (Double.mkEnemy 2 7 200 0 false)) = (-101)%float.
Proof.
  split; [|split].
  - destruct (C4_position_update_in_doubles 1500 (Double.mkEnemy 2 100 200 1000 false) eq_refl)
      as [[[Hlt _]|[_ Heq]] _].
    + vm_compute in Hlt. discriminate Hlt.
    + rewrite Heq. vm_compute. reflexivity.
  - destruct (C4_position_update_in_doubles 2500 (Double.mkEnemy 1 100 400 1000 false) eq_refl)
      as [[[_ Heq]|[Hle _]] _].
    + exact Heq.
    + vm_compute in Hle. discriminate Hle.
  - destruct (C4_position_update_in_doubles 2490 (Double.mkEnemy 2 7 200 0 false) eq_refl)
      as [[[_ Heq]|[Hle _]] _].
    + exact Heq.
    + vm_compute in Hle. discriminate Hle.
Defined.

(** The jump after a freeze is there in doubles as well: the second enemy
    (speed 200), last updated at clock 1016 and back at -101 after the
    RESET, is put at x = 303 by the update at clock 3036, not near -97.8,
    where 16 ms of motion would put it. *)
Lemma resume_jump_in_doubles :
  Double.e_x (Double._updatePosition 3036 (Double.mkEnemy 2 (-101) 200 1016 false))
  = 303%float
  /\ (Double.e_x (Double._updatePosition 3036 (Double.mkEnemy 2 (-101) 200 3020 false))
      <? -97)%float = true.
Proof. vm_compute. split; reflexivity. Qed.

(** ** The event bus *)

Lemma Set_add_new (observer : Observer) (s : list Observer) :
  observer ∉ s -> EventBus.Set_add observer s = s ++ [observer].
Proof. intros Hn. unfold EventBus.Set_add. destruct (decide (observer ∈ s)); [contradiction|reflexivity]. Qed.

Lemma Set_add_old (observer : Observer) (s : list Observer) :
  observer ∈ s -> EventBus.Set_add observer s = s.
Proof. intros Hn. unfold EventBus.Set_add. destruct (decide (observer ∈ s)); [reflexivity|contradiction]. Qed.

Lemma observeEvent_lookup (event : string) (observer : Observer)
    (this : gmap string (list Observer)) :
  EventBus.observeEvent event observer this !! event
  = Some (EventBus.Set_add observer (default [] (this !! event))).
Proof.
  unfold EventBus.observeEvent.
  destruct (decide (is_Some (this !! event))) as [[s Hs]|Hn].
  - rewrite lookup_alter_eq, Hs. reflexivity.
  - rewrite lookup_alter_eq, lookup_insert_eq.
    destruct (this !! event) eqn:E; [exfalso; apply Hn; eauto|reflexivity].
Qed.

Lemma observeEvent_lookup_ne (event other : string) (observer : Observer)
    (this : gmap string (list Observer)) :
  event <> other ->
  EventBus.observeEvent event observer this !! other = this !! other.
Proof.
  intros Hne. unfold EventBus.observeEvent.
  rewrite lookup_alter_ne by exact Hne.
  destruct (decide (is_Some (this !! event))); [reflexivity|].
  apply lookup_insert_ne. exact Hne.
Qed.

(** The bus and the children of the game after its constructor. *)
Lemma new_game_with (now1 now2 now3 now4 : Z) :
  FroggerGame.new now1 now2 now3 now4
  = game_with first_player (first_enemies now1 now2 now3 now4).
Proof. vm_compute. reflexivity. Qed.

Lemma game_with_events (p : Player) (es : list Enemy) :
  events (game_with p es) = game_events.
Proof. unfold game_with. cbn [events]. reflexivity. Qed.

Lemma lookup_WIN :
  game_events !! GAME_EVENTS.WIN = Some [FieldElement_onWin; FroggerGame_onWin].
Proof. vm_compute. reflexivity. Qed.

Lemma lookup_LOSE :
  game_events !! GAME_EVENTS.LOSE = Some [FieldElement_onLose; FroggerGame_onLose].
Proof. vm_compute. reflexivity. Qed.

Lemma lookup_STOP :
  game_events !! GAME_EVENTS.STOP
  = Some [Player_onStop; Enemy_onStop 0; Enemy_onStop 1; Enemy_onStop 2; Enemy_onStop 3].
Proof. vm_compute. reflexivity. Qed.

Lemma lookup_RESET :
  game_events !! GAME_EVENTS.RESET
  = Some [FieldElement_onReset; Player_onReset;
          Enemy_onReset 0; Enemy_onReset 1; Enemy_onReset 2; Enemy_onReset 3].
Proof. vm_compute. reflexivity. Qed.

Lemma lookup_CHANGE_CHARACTER :
  game_events !! GAME_EVENTS.CHANGE_CHARACTER = Some [Player_onChangeCharacter].
Proof. vm_compute. reflexivity. Qed.

(** Run a publication on a state [w] whose bus is [game_events] (hypothesis
    [H]). *)
Ltac on_game w H :=
  destruct w as [? ? ? ? ? ?]; cbn [events] in H; subst;
  repeat (cbv [emitEvent notify observer_body andThen modify skip record
               set_root set_player set_enemies set_timers setTimeout
               events root player enemies timers trace];
          rewrite ?lookup_WIN, ?lookup_LOSE, ?lookup_STOP, ?lookup_RESET,
            ?lookup_CHANGE_CHARACTER).

Ltac same_trace :=
  cbv [WIN_trace LOSE_trace STOP_trace RESET_trace call];
  rewrite <- ?app_assoc; reflexivity.

Lemma emit_STOP (fuel : nat) (source : Source) (params : Value) (w : World) :
  events w = game_events ->
  emitEvent (S fuel) GAME_EVENTS.STOP source params w
  = Some (mkWorld (root w) (Player_stop (player w)) (stop_enemies (enemies w))
            (events w) (timers w) (trace w ++ STOP_trace source params)).
Proof. intros H. on_game w H. same_trace. Qed.

Lemma emit_RESET (fuel : nat) (source : Source) (params : Value) (w : World) :
  events w = game_events ->
  emitEvent (S fuel) GAME_EVENTS.RESET source params w
  = Some (mkWorld (mkField false false (canvas (root w)))
            (Player_reset (player w)) (reset_enemies (enemies w))
            (events w) (timers w) (trace w ++ RESET_trace source params)).
Proof. intros H. on_game w H. same_trace. Qed.

Lemma emit_CHANGE_CHARACTER (fuel : nat) (source : Source) (params : Value) (w : World) :
  events w = game_events ->
  emitEvent (S fuel) GAME_EVENTS.CHANGE_CHARACTER source params w
  = Some (mkWorld (root w) (Player_changeCharacter params (player w)) (enemies w)
            (events w) (timers w)
            (trace w ++ Emit GAME_EVENTS.CHANGE_CHARACTER source params
               :: call Player_onChangeCharacter [])).
Proof. intros H. on_game w H. same_trace. Qed.

Lemma emit_WIN (fuel : nat) (source : Source) (params : Value) (w : World) :
  events w = game_events ->
  emitEvent (S (S fuel)) GAME_EVENTS.WIN source params w
  = Some (mkWorld (mkField true (drawLose (root w)) (canvas (root w)))
            (Player_stop (player w)) (stop_enemies (enemies w))
            (events w) (timers w ++ [(2000, EmitReset)])
            (trace w ++ WIN_trace source params)).
Proof. intros H. on_game w H. same_trace. Qed.

Lemma emit_LOSE (fuel : nat) (source : Source) (params : Value) (w : World) :
  events w = game_events ->
  emitEvent (S (S fuel)) GAME_EVENTS.LOSE source params w
  = Some (mkWorld (mkField (drawWin (root w)) true (canvas (root w)))
            (Player_stop (player w)) (stop_enemies (enemies w))
            (events w) (timers w ++ [(2000, EmitReset)])
            (trace w ++ LOSE_trace source params)).
Proof. intros H. on_game w H. same_trace. Qed.

Lemma stop_enemies_length (es : list Enemy) : length (stop_enemies es) = length es.
Proof. unfold stop_enemies. rewrite !length_alter. reflexivity. Qed.

Lemma reset_enemies_length (es : list Enemy) : length (reset_enemies es) = length es.
Proof. unfold reset_enemies. rewrite !length_alter. reflexivity. Qed.

Lemma four_enemies (es : list Enemy) :
  length es = 4%nat -> exists e0 e1 e2 e3, es = [e0; e1; e2; e3].
Proof.
  destruct es as [|e0 [|e1 [|e2 [|e3 [|e4 es]]]]]; cbn; intros H; try discriminate H.
  eauto.
Qed.

Lemma stop_enemies_all (es : list Enemy) :
  length es = 4%nat -> Forall (fun e => e_stopped e = true) (stop_enemies es).
Proof.
  intros H. destruct (four_enemies es H) as (e0 & e1 & e2 & e3 & ->).
  cbn. repeat constructor.
Qed.

Lemma reset_enemies_all (es : list Enemy) :
  length es = 4%nat ->
  Forall (fun e => e_x e = (-101)%Q /\ e_stopped e = false) (reset_enemies es).
Proof.
  intros H. destruct (four_enemies es H) as (e0 & e1 & e2 & e3 & ->).
  cbn. repeat constructor.
Qed.

(** ** Winning *)

Lemma WIN_trace_published (source : Source) (params : Value) :
  published GAME_EVENTS.WIN (WIN_trace source params) = [(source, params)]
  /\ published GAME_EVENTS.STOP (WIN_trace source params) = [(SrcGame, EmptyObject)]
  /\ published GAME_EVENTS.RESET (WIN_trace source params) = [].
Proof. repeat split. Qed.

Lemma RESET_trace_published (source : Source) (params : Value) :
  published GAME_EVENTS.RESET (RESET_trace source params) = [(source, params)].
Proof. reflexivity. Qed.

(** C3: a player that is not stopped and stands on row 1 of the game, on
    any column of the grid, moves to row 0 on [_moveUp] and publishes WIN
    exactly once, with itself as source; the publication and everything it
    triggers are finished when [_moveUp] is, so before the next input is
    handled. *)
Theorem C3_moveUp_to_goal_publishes_WIN (fuel : nat) (w : World) :
  events w = game_events ->
  p_stopped (player w) = false ->
  p_y (player w) = 1 ->
  0 <= p_x (player w) <= 4 ->
  exists w',
    Player._moveUp (S (S fuel)) w = Some w'
    /\ trace w' = trace w ++ WIN_trace SrcPlayer EmptyObject
    /\ published GAME_EVENTS.WIN (WIN_trace SrcPlayer EmptyObject) = [(SrcPlayer, EmptyObject)]
    /\ p_y (player w') = 0
    /\ p_x (player w') = p_x (player w)
    /\ forall rest,
         FroggerGame.run (S (S fuel)) (FroggerGame.KeyUp :: rest) w
         = FroggerGame.run (S (S fuel)) rest w'.
Proof.
  intros He Hs Hy Hx.
  assert (Hup : Player._moveUp (S (S fuel)) w
                = emitEvent (S (S fuel)) GAME_EVENTS.WIN SrcPlayer EmptyObject
                    (set_player (Player.set_y 0 (player w)) w)).
  { unfold Player._moveUp. rewrite Hs, Hy. reflexivity. }
  rewrite emit_WIN in Hup by exact He.
  eexists. split; [exact Hup|].
  cbn [trace player set_player Player.set_y Player_stop p_x p_y].
  repeat split.
  intros rest. cbn [FroggerGame.run FroggerGame.step]. unfold andThen at 1.
  rewrite Hup. reflexivity.
Qed.

Lemma C3_moveUp_to_goal_publishes_WIN_witness :
  exists w',
    Player._moveUp 2
      (game_with (mkPlayer 3 1 (2, 5) (Str CHARACTERS.BOY) false) (first_enemies 0 0 0 0))
    = Some w'
    /\ published GAME_EVENTS.WIN (trace w') = [(SrcPlayer, EmptyObject)]
    /\ p_y (player w') = 0.
Proof.
  destruct (C3_moveUp_to_goal_publishes_WIN 0
              (game_with (mkPlayer 3 1 (2, 5) (Str CHARACTERS.BOY) false)
                 (first_enemies 0 0 0 0)))
    as (w' & Hw' & Htr & Hpub & Hy & _).
  - apply game_with_events.
  - reflexivity.
  - reflexivity.
  - cbn [player game_with p_x]. lia.
  - exists w'. rewrite Htr.
    split; [exact Hw'|split; [exact Hpub|exact Hy]].
Defined.

(** C10: a player that is not stopped and already stands on row 0 keeps its
    column and row on [_moveUp], and WIN is published again with the player
    as source: [_moveUp] is then nothing but that publication. *)
Theorem C10_moveUp_on_goal_publishes_WIN_again (fuel : nat) (w : World) :
  events w = game_events ->
  p_stopped (player w) = false ->
  p_y (player w) = 0 ->
  (forall f, Player._moveUp f w = emitEvent f GAME_EVENTS.WIN SrcPlayer EmptyObject w)
  /\ exists w',
       Player._moveUp (S (S fuel)) w = Some w'
       /\ p_x (player w') = p_x (player w)
       /\ p_y (player w') = p_y (player w)
       /\ trace w' = trace w ++ WIN_trace SrcPlayer EmptyObject
       /\ published GAME_EVENTS.WIN (WIN_trace SrcPlayer EmptyObject) = [(SrcPlayer, EmptyObject)].
Proof.
  intros He Hs Hy.
  assert (Hup : forall f, Player._moveUp f w
                = emitEvent f GAME_EVENTS.WIN SrcPlayer EmptyObject w).
  { intros f. unfold Player._moveUp. rewrite Hs, Hy.
    change (0 >? 0) with false. cbv iota. rewrite Hy. reflexivity. }
  split; [exact Hup|].
  rewrite Hup, emit_WIN by exact He.
  eexists. split; [reflexivity|].
  cbn [trace player Player_stop p_x p_y]. repeat split.
Qed.

Lemma C10_moveUp_on_goal_publishes_WIN_again_witness :
  exists w',
    Player._moveUp 2
      (game_with (mkPlayer 2 0 (2, 0) (Str CHARACTERS.BOY) false) (first_enemies 0 0 0 0))
    = Some w'
    /\ p_x (player w') = 2 /\ p_y (player w') = 0
    /\ published GAME_EVENTS.WIN (trace w') = [(SrcPlayer, EmptyObject)].
Proof.
  destruct (C10_moveUp_on_goal_publishes_WIN_again 0
              (game_with (mkPlayer 2 0 (2, 0) (Str CHARACTERS.BOY) false)
                 (first_enemies 0 0 0 0)))
    as (_ & w' & Hw' & Hx & Hy & Htr & Hpub).
  - apply game_with_events.
  - reflexivity.
  - reflexivity.
  - exists w'. rewrite Htr.
    split; [exact Hw'|split; [exact Hx|split; [exact Hy|exact Hpub]]].
Defined.

(** C5: in the game, publishing WIN publishes STOP exactly once, inside the
    WIN observer of the game and finished (all five STOP observers have
    returned) before that observer goes on; the observer then schedules one
    callback after 2000 ms, which publishes RESET; no RESET is published
    before.  Everything is stopped after the WIN.  When RESET is processed,
    in [w'], any state of the game, the player is back on the square given
    to its constructor, every enemy is at x = -101, and nothing is stopped. *)
Theorem C5_win_stop_then_reset (fuel : nat) (source : Source) (params : Value)
    (w w' : World) :
  wired w ->
  wired w' ->
  (exists w1,
     emitEvent (S (S fuel)) GAME_EVENTS.WIN source params w = Some w1
     /\ trace w1
        = trace w ++ Emit GAME_EVENTS.WIN source params
            :: call FieldElement_onWin []
            ++ call FroggerGame_onWin (STOP_trace SrcGame EmptyObject)
     /\ published GAME_EVENTS.STOP (WIN_trace source params) = [(SrcGame, EmptyObject)]
     /\ published GAME_EVENTS.RESET (WIN_trace source params) = []
     /\ timers w1 = timers w ++ [(2000, EmitReset)]
     /\ p_stopped (player w1) = true
     /\ Forall (fun e => e_stopped e = true) (enemies w1)
     /\ p_initialSquarePosition (player w1) = p_initialSquarePosition (player w)
     /\ wired w1)
  /\ (exists w2,
        FroggerGame.on_timeout (S fuel) (set_timers [(2000, EmitReset)] w') = Some w2
        /\ trace w2 = trace w' ++ RESET_trace SrcGame EmptyObject
        /\ published GAME_EVENTS.RESET (RESET_trace SrcGame EmptyObject) = [(SrcGame, EmptyObject)]
        /\ timers w2 = []
        /\ (p_x (player w2), p_y (player w2)) = p_initialSquarePosition (player w')
        /\ p_stopped (player w2) = false
        /\ Forall (fun e => e_x e = (-101)%Q /\ e_stopped e = false) (enemies w2)
        /\ wired w2).
Proof.
  intros [He Hn] [He' Hn']. split.
  - rewrite emit_WIN by exact He. eexists. split; [reflexivity|].
    cbn [trace timers player enemies events Player_stop p_stopped p_initialSquarePosition].
    repeat split; auto using stop_enemies_all.
    cbn [enemies]. rewrite stop_enemies_length. exact Hn.
  - unfold FroggerGame.on_timeout. cbn [timers set_timers].
    rewrite emit_RESET by exact He'. eexists. split; [reflexivity|].
    cbn [trace timers player enemies events set_timers Player_reset p_x p_y p_stopped
         p_initialSquarePosition].
    repeat split; auto using reset_enemies_all.
    + destruct (p_initialSquarePosition (player w')); reflexivity.
    + cbn [enemies]. rewrite reset_enemies_length. exact Hn'.
Qed.

Lemma C5_win_stop_then_reset_witness :
  (exists w1,
     emitEvent 2 GAME_EVENTS.WIN SrcPlayer EmptyObject
       (game_with (mkPlayer 2 0 (2, 5) (Str CHARACTERS.BOY) false) (first_enemies 0 0 0 0))
     = Some w1
     /\ timers w1 = [(2000, EmitReset)]
     /\ p_stopped (player w1) = true)
  /\ (exists w2,
        FroggerGame.on_timeout 1
          (set_timers [(2000, EmitReset)]
             (game_with (mkPlayer 2 0 (2, 5) (Str CHARACTERS.BOY) true)
                (map Enemy_stop (first_enemies 0 0 0 0))))
        = Some w2
        /\ (p_x (player w2), p_y (player w2)) = (2, 5)
        /\ p_stopped (player w2) = false
        /\ Forall (fun e => e_x e = (-101)%Q /\ e_stopped e = false) (enemies w2)).
Proof.
  destruct (C5_win_stop_then_reset 0 SrcPlayer EmptyObject
              (game_with (mkPlayer 2 0 (2, 5) (Str CHARACTERS.BOY) false)
                 (first_enemies 0 0 0 0))
              (game_with (mkPlayer 2 0 (2, 5) (Str CHARACTERS.BOY) true)
                 (map Enemy_stop (first_enemies 0 0 0 0))))
    as [(w1 & H1 & _ & _ & _ & Ht & Hs & _) (w2 & H2 & _ & _ & _ & Hp & Hs2 & Hes & _)].
  - split; [apply game_with_events|reflexivity].
  - split; [apply game_with_events|reflexivity].
  - split.
    + exists w1. split; [exact H1|split; [exact Ht|exact Hs]].
    + exists w2. split; [exact H2|split; [exact Hp|split; [exact Hs2|exact Hes]]].
Defined.

(** ** Freezing and the clock *)

(** While an enemy is stopped an update changes nothing, the clock value
    included. *)
Lemma frozen_update_keeps_all (now : Z) (this : Enemy) :
  e_stopped this = true -> Enemy._updatePosition now this = this.
Proof. intros H. unfold Enemy._updatePosition. rewrite H. reflexivity. Qed.

(** The RESET observer of an enemy leaves [lastUpdate] as it was, so the
    first update after a stop and a reset measures the time from the last
    update before the stop. *)
Lemma update_after_reset (now : Z) (this : Enemy) :
  let moved :=
    (-101 + e_increase this * (inject_Z (now - e_lastUpdate this) / 1000))%Q in
  e_lastUpdate (Enemy_reset (Enemy_stop this)) = e_lastUpdate this
  /\ e_x (Enemy._updatePosition now (Enemy_reset (Enemy_stop this)))
     = (if (moved >? 505)%Q then (-101)%Q else moved).
Proof. split; reflexivity. Qed.

(** C2 fails on the code.  The second enemy (speed 200) is created at clock
    1000 and drawn at 1016; the player then wins (five key presses), the
    game is frozen, a frame drawn at 2000 changes nothing, and the timer
    fires at about 3020.  The frame at 3036 moves the enemy by the 2020 ms
    since its last update before the freeze, to x = 303, not by the 16 ms
    since the unfreeze. *)
Theorem C2_resume_counts_frozen_interval :
  exists w e,
    FroggerGame.run 2
      [FroggerGame.EnemyDraw 1 1016;
       FroggerGame.KeyUp; FroggerGame.KeyUp; FroggerGame.KeyUp; FroggerGame.KeyUp;
       FroggerGame.KeyUp;
       FroggerGame.EnemyDraw 1 2000;
       FroggerGame.TimerFires;
       FroggerGame.EnemyDraw 1 3036]
      (game_with first_player (first_enemies 1000 1000 1000 1000))
    = Some w
    /\ enemies w !! 1%nat = Some e
    /\ e_lastUpdate e = 3036
    /\ (e_x e == 303)%Q
    /\ ~ (e_x e == -101 + 200 * (inject_Z (3036 - 3020) / 1000))%Q.
Proof.
  eexists. eexists. split; [vm_compute; reflexivity|].
  split; [reflexivity|]. split; [reflexivity|]. split.
  - vm_compute. reflexivity.
  - vm_compute. discriminate.
Qed.

(** ** Publishing in general *)

Section Fan_out.

Variable emit : string -> Source -> Value -> Task.

(** What is assumed of the nested publications an observer may make:
    they leave the registrations alone and only add to the trace. *)
Hypothesis emit_events :
  forall ev s p w w', emit ev s p w = Some w' -> events w' = events w.
Hypothesis emit_trace :
  forall ev s p w w', emit ev s p w = Some w' -> exists seg, trace w' = trace w ++ seg.

Lemma observer_body_events o ev s p w w' :
  observer_body emit o ev s p w = Some w' -> events w' = events w.
Proof.
  destruct o; cbn [observer_body]; unfold modify, andThen;
    try (intros [= <-]; reflexivity).
  all: destruct (emit GAME_EVENTS.STOP SrcGame EmptyObject w) as [w1|] eqn:E;
    [intros [= <-]; cbn [events setTimeout set_timers]; eauto | discriminate].
Qed.

Lemma observer_body_trace o ev s p w w' :
  observer_body emit o ev s p w = Some w' -> exists seg, trace w' = trace w ++ seg.
Proof.
  destruct o; cbn [observer_body]; unfold modify, andThen;
    try (intros [= <-]; exists []; cbn [trace set_root set_player set_enemies];
         rewrite app_nil_r; reflexivity).
  all: destruct (emit GAME_EVENTS.STOP SrcGame EmptyObject w) as [w1|] eqn:E;
    [intros [= <-]; cbn [trace setTimeout set_timers]; eauto | discriminate].
Qed.

Lemma notify_events observers ev s p :
  forall w w', notify emit observers ev s p w = Some w' -> events w' = events w.
Proof.
  induction observers as [|o rest IH]; intros w w'; cbn [notify].
  - intros [= <-]. reflexivity.
  - unfold andThen at 1, modify at 1. unfold andThen at 1.
    destruct (observer_body emit o ev s p (record (Enter o) w)) as [w1|] eqn:E;
      [|discriminate].
    unfold andThen at 1, modify at 1. intros Hrest.
    apply IH in Hrest. apply observer_body_events in E.
    rewrite Hrest. cbn [events record] in *. exact E.
Qed.

(** The observers are called one after the other, in the order of the
    list, and each call has ended before the next one starts. *)
Lemma notify_trace observers ev s p :
  forall w w', notify emit observers ev s p w = Some w' ->
  exists inner : list (list Action),
    length inner = length observers
    /\ trace w' = trace w ++ concat (zip_with call observers inner).
Proof.
  induction observers as [|o rest IH]; intros w w'; cbn [notify].
  - intros [= <-]. exists []. split; [reflexivity|]. cbn. rewrite app_nil_r. reflexivity.
  - unfold andThen at 1, modify at 1. unfold andThen at 1.
    destruct (observer_body emit o ev s p (record (Enter o) w)) as [w1|] eqn:E;
      [|discriminate].
    unfold andThen at 1, modify at 1. intros Hrest.
    apply IH in Hrest. destruct Hrest as (inner & Hlen & Htr).
    apply observer_body_trace in E. destruct E as (seg & Hseg).
    exists (seg :: inner). split; [cbn; rewrite Hlen; reflexivity|].
    rewrite Htr. cbn [trace record zip_with concat]. rewrite Hseg.
    cbn [trace record]. change (call o seg) with (Enter o :: seg ++ [Leave o]).
    rewrite <- !app_assoc. cbn [app]. rewrite <- !app_assoc. reflexivity.
Qed.

End Fan_out.

Lemma emitEvent_events fuel :
  forall ev s p w w', emitEvent fuel ev s p w = Some w' -> events w' = events w.
Proof.
  induction fuel as [|fuel IH]; intros ev s p w w'; cbn [emitEvent]; [discriminate|].
  cbn [events record].
  destruct (events w !! ev) as [observers|] eqn:E.
  - intros H. apply (notify_events _ IH) in H. exact H.
  - intros [= <-]. reflexivity.
Qed.

Lemma emitEvent_trace fuel :
  forall ev s p w w', emitEvent fuel ev s p w = Some w' ->
  exists seg, trace w' = trace w ++ seg.
Proof.
  induction fuel as [|fuel IH]; intros ev s p w w'; cbn [emitEvent]; [discriminate|].
  cbn [events record].
  destruct (events w !! ev) as [observers|] eqn:E.
  - intros H. apply (notify_trace _ IH) in H. destruct H as (inner & _ & Htr).
    rewrite Htr. cbn [trace record]. rewrite <- app_assoc. eauto.
  - intros [= <-]. cbn [trace record]. eauto.
Qed.

(** In the game every publication ends: two levels of publishing are
    enough, since only WIN and LOSE observers publish, and they publish
    STOP. *)
Lemma observer_body_total fuel o ev s p w :
  events w = game_events ->
  exists w', observer_body (emitEvent (S fuel)) o ev s p w = Some w'.
Proof.
  intros H. destruct o; cbn [observer_body]; unfold modify, andThen; eauto.
  all: rewrite emit_STOP by exact H; eauto.
Qed.

Lemma notify_total fuel observers ev s p :
  forall w, events w = game_events ->
  exists w', notify (emitEvent (S fuel)) observers ev s p w = Some w'.
Proof.
  induction observers as [|o rest IH]; intros w H; cbn [notify].
  - unfold skip. eauto.
  - unfold andThen at 1, modify at 1. unfold andThen at 1.
    destruct (observer_body_total fuel o ev s p (record (Enter o) w) H) as (w1 & E).
    rewrite E. unfold andThen at 1, modify at 1.
    apply IH. cbn [events record].
    apply (observer_body_events _ (emitEvent_events (S fuel))) in E.
    rewrite E. exact H.
Qed.

Lemma emitEvent_total fuel ev s p w :
  events w = game_events ->
  exists w', emitEvent (S (S fuel)) ev s p w = Some w'.
Proof.
  intros H. cbn [emitEvent]. cbn [events record].
  destruct (events w !! ev) as [observers|] eqn:E.
  - apply notify_total. exact H.
  - eauto.
Qed.

(** The loop of [emitEvent] does what the specification says of a
    publication: it ends in [w'] exactly when the observers, run one after
    the other as [fan_out] has it, end in [w']. *)
Lemma notify_fan_out (emit : string -> Source -> Value -> Task)
    (event : string) (source : Source) (params : Value) (observers : list Observer) :
  forall w w',
    notify emit observers event source params w = Some w'
    <-> fan_out emit event source params observers w w'.
Proof.
  induction observers as [|o rest IH]; intros w w'; cbn [notify].
  - unfold skip. split.
    + intros [= <-]. constructor.
    + inversion 1. reflexivity.
  - unfold andThen at 1, modify at 1. unfold andThen at 1.
    split.
    + destruct (observer_body emit o event source params (record (Enter o) w))
        as [w1|] eqn:E; [|discriminate].
      unfold andThen at 1, modify at 1. intros H.
      apply (fan_out_next _ _ _ _ _ _ _ w1); [exact E|]. apply IH. exact H.
    + inversion 1 as [|o' rest' w0 w1 w0' Hbody Hrest]; subst.
      rewrite Hbody. unfold andThen at 1, modify at 1. apply IH. exact Hrest.
Qed.

(** C7: a publication invokes the observers registered for the event at
    that moment, all of them and no other, in the order in which they were
    registered; each one is invoked on the state in which the one before
    it has ended, runs its body to the end, and only then is the next one
    invoked ([fan_out]); the publication ends in the state in which the
    last observer has ended.  Its trace is the publication followed by the
    calls of the observers, one whole call after the other.  The
    registrations are the same afterwards.  A new observer is registered
    behind the ones already there.  In the game every publication ends;
    STOP, for one, ends with the player and every enemy stopped. *)
Theorem C7_sequential_fan_out (fuel : nat) (event : string) (source : Source)
    (params : Value) (w : World) :
  let observers := default [] (events w !! event) in
  (forall w',
     emitEvent (S fuel) event source params w = Some w'
     <-> fan_out (emitEvent fuel) event source params observers
           (record (Emit event source params) w) w')
  /\ emitEvent (S fuel) event source params w
     = notify (emitEvent fuel) observers event source params
         (record (Emit event source params) w)
  /\ (forall w',
        emitEvent (S fuel) event source params w = Some w' ->
        (exists inner : list (list Action),
           length inner = length observers
           /\ trace w'
              = trace w ++ Emit event source params
                  :: concat (zip_with call observers inner))
        /\ events w' = events w)
  /\ (forall observer,
        observer ∉ observers ->
        EventBus.observeEvent event observer (events w) !! event
        = Some (observers ++ [observer]))
  /\ (forall observer,
        observer ∈ observers ->
        EventBus.observeEvent event observer (events w) !! event = Some observers)
  /\ (events w = game_events ->
      (exists w', emitEvent (S (S fuel)) event source params w = Some w')
      /\ exists w',
           emitEvent (S fuel) GAME_EVENTS.STOP source params w = Some w'
           /\ player w' = Player_stop (player w)
           /\ enemies w' = stop_enemies (enemies w)).
Proof.
  intros observers. subst observers.
  assert (Hloop : emitEvent (S fuel) event source params w
                  = notify (emitEvent fuel) (default [] (events w !! event))
                      event source params (record (Emit event source params) w)).
  { cbn [emitEvent]. cbn [events record].
    destruct (events w !! event); reflexivity. }
  split; [|split; [|split; [|split; [|split]]]].
  - intros w'. rewrite Hloop. apply notify_fan_out.
  - exact Hloop.
  - intros w' H. split; [|exact (emitEvent_events _ _ _ _ _ _ H)].
    cbn [emitEvent] in H. cbn [events record] in H.
    destruct (events w !! event) as [observers|] eqn:E; cbn [default].
    + apply (notify_trace _ (emitEvent_trace fuel)) in H.
      destruct H as (inner & Hlen & Htr). exists inner. split; [exact Hlen|].
      rewrite Htr. cbn [trace record]. rewrite <- app_assoc. reflexivity.
    + injection H as <-. exists []. split; reflexivity.
  - intros observer Hn. rewrite observeEvent_lookup, Set_add_new by exact Hn. reflexivity.
  - intros observer Hn. rewrite observeEvent_lookup, Set_add_old by exact Hn. reflexivity.
  - intros Hev. split; [apply emitEvent_total; exact Hev|].
    rewrite emit_STOP by exact Hev. eexists. split; [reflexivity|].
    cbn [player enemies]. auto.
Qed.

Lemma C7_sequential_fan_out_witness :
  exists w' inner,
    emitEvent 2 GAME_EVENTS.WIN SrcPlayer EmptyObject
      (game_with first_player (first_enemies 0 0 0 0)) = Some w'
    /\ fan_out (emitEvent 1) GAME_EVENTS.WIN SrcPlayer EmptyObject
         [FieldElement_onWin; FroggerGame_onWin]
         (record (Emit GAME_EVENTS.WIN SrcPlayer EmptyObject)
            (game_with first_player (first_enemies 0 0 0 0))) w'
    /\ length inner = 2%nat
    /\ trace w'
       = Emit GAME_EVENTS.WIN SrcPlayer EmptyObject
           :: concat (zip_with call [FieldElement_onWin; FroggerGame_onWin] inner).
Proof.
  destruct (C7_sequential_fan_out 0 GAME_EVENTS.WIN SrcPlayer EmptyObject
              (game_with first_player (first_enemies 0 0 0 0)))
    as (_ & _ & _ & _ & _ & Htotal).
  destruct (Htotal (game_with_events _ _)) as ((w' & Hw') & _).
  destruct (C7_sequential_fan_out 1 GAME_EVENTS.WIN SrcPlayer EmptyObject
              (game_with first_player (first_enemies 0 0 0 0)))
    as (Hfan & _ & Hcalls & _).
  destruct (Hcalls w' Hw') as ((inner & Hlen & Htr) & _).
  apply Hfan in Hw' as Hrun.
  rewrite game_with_events, lookup_WIN in Hlen, Htr, Hrun.
  cbn [trace game_with default app] in Hlen, Htr.
  cbn [from_option id] in Hrun.
  exists w', inner. split; [exact Hw'|split; [exact Hrun|split; [exact Hlen|exact Htr]]].
Defined.

(** ** The player stays on the grid *)

Ltac show_running :=
  unfold running, wired, in_grid in *;
  cbn [root player enemies events timers trace set_player set_enemies set_timers
       Player.set_x Player.set_y Player_stop Player_reset Player_changeCharacter
       p_x p_y p_stopped p_initialSquarePosition fst snd] in *;
  rewrite ?stop_enemies_length, ?reset_enemies_length, ?length_alter;
  intuition (try lia; try congruence).

Lemma running_first (now1 now2 now3 now4 : Z) :
  running (game_with first_player (first_enemies now1 now2 now3 now4)).
Proof.
  unfold running, wired, in_grid.
  cbn [player enemies events game_with first_player first_enemies
       p_x p_y p_stopped p_initialSquarePosition length].
  intuition (try lia; try congruence).
Qed.

Lemma moveUp_stopped (fuel : nat) (w : World) :
  p_stopped (player w) = true -> Player._moveUp fuel w = Some w.
Proof. intros H. unfold Player._moveUp. rewrite H. reflexivity. Qed.

Lemma set_player_same (w : World) : set_player (player w) w = w.
Proof. destruct w. reflexivity. Qed.

Lemma running_step (fuel : nat) (i : FroggerGame.Input) (w : World) :
  running w ->
  exists w', FroggerGame.step (S (S fuel)) i w = Some w' /\ running w'.
Proof.
  intros Hr. assert (He : events w = game_events) by apply Hr.
  destruct i; cbn [FroggerGame.step]; unfold modify.
  - (* KeyUp *)
    unfold Player._moveUp. destruct (p_stopped (player w)) eqn:Hs; [eauto|].
    assert (Hgt : (p_y (player w) >? 0) = true).
    { destruct Hr as (_ & _ & (_ & Hy) & Hz). apply Z.gtb_lt.
      destruct (Z.eq_dec (p_y (player w)) 0) as [E|E]; [|lia].
      rewrite (Hz E) in Hs. discriminate Hs. }
    rewrite Hgt. cbn [player set_player Player.set_y p_y].
    destruct (p_y (player w) - 1 =? 0) eqn:Hz.
    + rewrite emit_WIN by exact He. eexists. split; [reflexivity|]. show_running.
    + eexists. split; [reflexivity|]. show_running.
  - (* KeyDown *)
    eexists. split; [reflexivity|]. unfold Player._moveDown.
    destruct (p_stopped (player w)) eqn:Hs; [rewrite set_player_same; exact Hr|].
    destruct (p_y (player w) <? 5) eqn:Hlt; [|rewrite set_player_same; exact Hr].
    show_running.
  - (* KeyLeft *)
    eexists. split; [reflexivity|]. unfold Player._moveLeft.
    destruct (p_stopped (player w)) eqn:Hs; [rewrite set_player_same; exact Hr|].
    destruct (p_x (player w) >? 0) eqn:Hlt; [|rewrite set_player_same; exact Hr].
    show_running.
  - (* KeyRight *)
    eexists. split; [reflexivity|]. unfold Player._moveRight.
    destruct (p_stopped (player w)) eqn:Hs; [rewrite set_player_same; exact Hr|].
    destruct (p_x (player w) <? 4) eqn:Hlt; [|rewrite set_player_same; exact Hr].
    show_running.
  - (* ChangeCharacter *)
    rewrite emit_CHANGE_CHARACTER by exact He. eexists. split; [reflexivity|]. show_running.
  - (* TimerFires *)
    unfold FroggerGame.on_timeout. destruct (timers w) as [|[d []] rest]; [eauto|].
    rewrite emit_RESET by exact He. eexists. split; [reflexivity|].
    destruct Hr as (Hw & Hi & Hg & Hz).
    unfold running, wired, in_grid in *.
    cbn [root player enemies events timers trace set_timers Player_reset
         p_x p_y p_stopped p_initialSquarePosition].
    rewrite Hi, reset_enemies_length. cbn [fst snd].
    intuition (try lia; try congruence).
  - (* PlayerDraw *)
    unfold Player.drawItself.
    destruct (Player.collisionDetection w && negb (p_stopped (player w))); [|eauto].
    rewrite emit_LOSE by exact He. eexists. split; [reflexivity|]. show_running.
  - (* EnemyDraw *)
    eexists. split; [reflexivity|]. show_running.
Qed.

Lemma running_run (fuel : nat) (inputs : list FroggerGame.Input) :
  forall w, running w ->
  exists w', FroggerGame.run (S (S fuel)) inputs w = Some w' /\ running w'.
Proof.
  induction inputs as [|i rest IH]; intros w Hr; cbn [FroggerGame.run].
  - unfold skip. eauto.
  - unfold andThen. destruct (running_step fuel i w Hr) as (w1 & -> & Hr1).
    apply IH. exact Hr1.
Qed.

(** C6: whatever happens to the game built by [FroggerGame.new] (key
    presses, character changes, timers, draws, in any order), it goes on
    and the player stays on the grid: column in [0,4], row in [0,5].  The
    player starts on the grid; in every state that is reached, each of the
    four moves changes nothing when the player is stopped or when the move
    would leave the grid (on row 0 the player of the running game is always
    stopped); every further input leaves the player on the grid; and RESET
    puts it back on square (2, 5). *)
Theorem C6_player_stays_on_grid (now1 now2 now3 now4 : Z) (fuel : nat)
    (inputs : list FroggerGame.Input) :
  in_grid (player (FroggerGame.new now1 now2 now3 now4))
  /\ exists w,
       FroggerGame.run (S (S fuel)) inputs (FroggerGame.new now1 now2 now3 now4) = Some w
       /\ in_grid (player w)
       /\ (p_stopped (player w) = true ->
           Player._moveUp (S (S fuel)) w = Some w
           /\ Player._moveDown (player w) = player w
           /\ Player._moveLeft (player w) = player w
           /\ Player._moveRight (player w) = player w)
       /\ (p_y (player w) = 0 -> Player._moveUp (S (S fuel)) w = Some w)
       /\ (p_y (player w) = 5 -> Player._moveDown (player w) = player w)
       /\ (p_x (player w) = 0 -> Player._moveLeft (player w) = player w)
       /\ (p_x (player w) = 4 -> Player._moveRight (player w) = player w)
       /\ (forall i, exists w',
             FroggerGame.step (S (S fuel)) i w = Some w' /\ in_grid (player w'))
       /\ (exists w',
             emitEvent (S (S fuel)) GAME_EVENTS.RESET SrcGame EmptyObject w = Some w'
             /\ p_x (player w') = 2 /\ p_y (player w') = 5
             /\ in_grid (player w')).
Proof.
  rewrite new_game_with.
  split; [apply running_first|].
  destruct (running_run fuel inputs _ (running_first now1 now2 now3 now4))
    as (w & Hrun & Hr).
  exists w. split; [exact Hrun|].
  split; [apply Hr|].
  split; [|split; [|split; [|split; [|split; [|split]]]]].
  - intros Hs. split; [apply moveUp_stopped; exact Hs|].
    unfold Player._moveDown, Player._moveLeft, Player._moveRight. rewrite Hs. auto.
  - intros Hy. apply moveUp_stopped. apply Hr. exact Hy.
  - intros Hy. unfold Player._moveDown. rewrite Hy.
    destruct (p_stopped (player w)); reflexivity.
  - intros Hx. unfold Player._moveLeft. rewrite Hx.
    destruct (p_stopped (player w)); reflexivity.
  - intros Hx. unfold Player._moveRight. rewrite Hx.
    destruct (p_stopped (player w)); reflexivity.
  - intros i. destruct (running_step fuel i w Hr) as (w' & Hw' & Hr').
    exists w'. split; [exact Hw'|apply Hr'].
  - assert (He : events w = game_events) by apply Hr.
    rewrite emit_RESET by exact He. eexists. split; [reflexivity|].
    destruct Hr as (_ & Hi & _).
    unfold in_grid. cbn [player Player_reset p_x p_y]. rewrite Hi. cbn [fst snd]. lia.
Qed.

(** * Further properties of the code *)

(** ** The image cache *)

(** X1: an image that was loaded is served from the cache: a second
    [loadImage] of the same url returns the same image, creates no new
    [Image] and leaves the loader as it is; the first one creates at most
    one image and touches no other url. *)
Theorem loadImage_memoized (url : string) (this : ImageLoader.t) :
  let '(this1, image1) := ImageLoader.loadImage url this in
  ImageLoader.loadImage url this1 = (this1, image1)
  /\ ImageLoader.imageCache this1 !! url = Some image1
  /\ (ImageLoader.created this1 <= S (ImageLoader.created this))%nat
  /\ (is_Some (ImageLoader.imageCache this !! url) -> this1 = this)
  /\ forall other, other <> url ->
       ImageLoader.imageCache this1 !! other = ImageLoader.imageCache this !! other.
Proof.
  unfold ImageLoader.loadImage, ImageLoader.start.
  destruct (ImageLoader.imageCache this !! url) as [image|] eqn:E.
  - rewrite E. repeat split; auto; lia.
  - cbn [ImageLoader.finish ImageLoader.imageCache ImageLoader.created].
    rewrite lookup_insert_eq.
    split; [reflexivity|]. split; [reflexivity|]. split; [lia|].
    split; [intros [x Hx]; discriminate Hx|].
    intros other Hne. apply lookup_insert_ne. congruence.
Qed.

(** X2: two [loadImage] calls for a url that is not cached, the second
    started before the first has finished, are not merged: each creates its
    own image, so the callers get different images, and the cache keeps the
    image of the call that finishes last. *)
Theorem loadImage_overlapping (url : string) (this : ImageLoader.t) :
  ImageLoader.imageCache this !! url = None ->
  exists this1 this2 a b,
    ImageLoader.start url this = (this1, ImageLoader.Loading url a)
    /\ ImageLoader.start url this1 = (this2, ImageLoader.Loading url b)
    /\ a <> b
    /\ (let '(after_a, got_a) := ImageLoader.finish url a this2 in
        let '(after_b, got_b) := ImageLoader.finish url b after_a in
        got_a = a /\ got_b = b
        /\ ImageLoader.imageCache after_b !! url = Some b
        /\ ImageLoader.loadImage url after_b = (after_b, b))
    /\ (let '(after_b, _) := ImageLoader.finish url b this2 in
        let '(after_a, _) := ImageLoader.finish url a after_b in
        ImageLoader.imageCache after_a !! url = Some a
        /\ ImageLoader.loadImage url after_a = (after_a, a)).
Proof.
  intros Hnone.
  exists (ImageLoader.mk (ImageLoader.imageCache this) (S (ImageLoader.created this))),
         (ImageLoader.mk (ImageLoader.imageCache this) (S (S (ImageLoader.created this)))),
         (ImageLoader.created this), (S (ImageLoader.created this)).
  unfold ImageLoader.start. cbn [ImageLoader.imageCache ImageLoader.created].
  rewrite Hnone.
  split; [reflexivity|]. split; [reflexivity|]. split; [lia|].
  unfold ImageLoader.loadImage, ImageLoader.start, ImageLoader.finish.
  cbn [ImageLoader.imageCache ImageLoader.created].
  rewrite !lookup_insert_eq. repeat split; reflexivity.
Qed.

Lemma loadImage_overlapping_witness :
  exists this2 a b,
    snd (ImageLoader.start "img/enemy-bug.png"
           (fst (ImageLoader.start "img/enemy-bug.png" ImageLoader.empty)))
    = ImageLoader.Loading "img/enemy-bug.png" b
    /\ fst (ImageLoader.start "img/enemy-bug.png"
              (fst (ImageLoader.start "img/enemy-bug.png" ImageLoader.empty))) = this2
    /\ snd (ImageLoader.start "img/enemy-bug.png" ImageLoader.empty)
       = ImageLoader.Loading "img/enemy-bug.png" a
    /\ a <> b.
Proof.
  destruct (loadImage_overlapping "img/enemy-bug.png" ImageLoader.empty)
    as (this1 & this2 & a & b & H1 & H2 & Hab & _).
  - reflexivity.
  - exists this2, a, b. rewrite H1. cbn [fst snd]. rewrite H2. cbn [fst snd]. auto.
Defined.

(** ** Registering observers *)

Lemma elem_of_Set_add (observer : Observer) (s : list Observer) :
  observer ∈ EventBus.Set_add observer s.
Proof.
  unfold EventBus.Set_add. destruct (decide (observer ∈ s)); [assumption|].
  apply elem_of_app. right. apply list_elem_of_singleton. reflexivity.
Qed.

Lemma NoDup_Set_add (observer : Observer) (s : list Observer) :
  NoDup s -> NoDup (EventBus.Set_add observer s).
Proof.
  intros H. unfold EventBus.Set_add. destruct (decide (observer ∈ s)); [assumption|].
  apply NoDup_app. split; [assumption|]. split; [|apply NoDup_singleton].
  intros x Hx Hin. apply list_elem_of_singleton in Hin. subst x. contradiction.
Qed.

(** X3: registering an observer keeps what is registered: the observers of
    the event keep their places and the new one comes last, the observers
    of every other event are untouched, no observer is ever listed twice
    for an event, and registering the same observer again changes
    nothing. *)
Theorem observeEvent_registers_once (event : string) (observer : Observer)
    (this : gmap string (list Observer)) :
  let before := default [] (this !! event) in
  (exists after,
     EventBus.observeEvent event observer this !! event = Some after
     /\ before `prefix_of` after
     /\ observer ∈ after
     /\ (NoDup before -> NoDup after)
     /\ (length after <= S (length before))%nat)
  /\ (forall other, other <> event ->
        EventBus.observeEvent event observer this !! other = this !! other)
  /\ EventBus.observeEvent event observer (EventBus.observeEvent event observer this)
     = EventBus.observeEvent event observer this.
Proof.
  intros before. split; [|split].
  - exists (EventBus.Set_add observer before).
    split; [apply observeEvent_lookup|].
    split.
    { unfold EventBus.Set_add. destruct (decide (observer ∈ before)).
      - reflexivity.
      - apply prefix_app_r. reflexivity. }
    split; [apply elem_of_Set_add|].
    split; [apply NoDup_Set_add|].
    unfold EventBus.Set_add. destruct (decide (observer ∈ before)); [lia|].
    rewrite length_app. cbn. lia.
  - intros other Hne. apply observeEvent_lookup_ne. congruence.
  - apply map_eq. intros k. destruct (decide (k = event)) as [->|Hne].
    + rewrite !observeEvent_lookup. cbn [from_option id].
      rewrite (Set_add_old observer (EventBus.Set_add observer _)) by apply elem_of_Set_add.
      reflexivity.
    + rewrite !observeEvent_lookup_ne by congruence. reflexivity.
Qed.

(** ** Publishing a name nobody observes *)

Lemma game_events_list :
  map_to_list game_events
  = [(GAME_EVENTS.WIN, [FieldElement_onWin; FroggerGame_onWin]);
     (GAME_EVENTS.STOP,
      [Player_onStop; Enemy_onStop 0; Enemy_onStop 1; Enemy_onStop 2; Enemy_onStop 3]);
     (GAME_EVENTS.CHANGE_CHARACTER, [Player_onChangeCharacter]);
     (GAME_EVENTS.RESET,
      [FieldElement_onReset; Player_onReset;
       Enemy_onReset 0; Enemy_onReset 1; Enemy_onReset 2; Enemy_onReset 3]);
     (GAME_EVENTS.LOSE, [FieldElement_onLose; FroggerGame_onLose])].
Proof. vm_compute. reflexivity. Qed.

(** X4: the game has observers for its five event names only.  Publishing
    any other name comes back at once, calls no observer and leaves the
    field, the player, the enemies, the registrations and the timers as
    they are. *)
Theorem emitEvent_unobserved (fuel : nat) (event : string) (source : Source)
    (params : Value) (w : World) :
  events w = game_events ->
  event <> GAME_EVENTS.STOP -> event <> GAME_EVENTS.WIN -> event <> GAME_EVENTS.LOSE ->
  event <> GAME_EVENTS.CHANGE_CHARACTER -> event <> GAME_EVENTS.RESET ->
  exists w',
    emitEvent (S fuel) event source params w = Some w'
    /\ same_game w' w
    /\ trace w' = trace w ++ [Emit event source params].
Proof.
  intros He Hs Hw Hl Hc Hr.
  assert (Hnone : game_events !! event = None).
  { destruct (game_events !! event) as [l|] eqn:E; [|reflexivity].
    apply elem_of_map_to_list in E. rewrite game_events_list in E.
    repeat (apply elem_of_cons in E; destruct E as [E|E]; [congruence|]).
    apply elem_of_nil in E. contradiction. }
  cbn [emitEvent]. cbn [events record]. rewrite He, Hnone.
  eexists. split; [reflexivity|]. unfold same_game.
  cbn [root player enemies events timers trace]. repeat split.
Qed.

Lemma emitEvent_unobserved_witness :
  exists w',
    emitEvent 1 "pause" SrcGame EmptyObject (game_with first_player (first_enemies 0 0 0 0))
    = Some w'
    /\ trace w' = [Emit "pause" SrcGame EmptyObject].
Proof.
  destruct (emitEvent_unobserved 0 "pause" SrcGame EmptyObject
              (game_with first_player (first_enemies 0 0 0 0)))
    as (w' & Hw' & _ & Htr).
  - apply game_with_events.
  - discriminate.
  - discriminate.
  - discriminate.
  - discriminate.
  - discriminate.
  - exists w'. split; [exact Hw'|exact Htr].
Defined.

(** ** Moving the player *)

Ltac split_tests :=
  repeat match goal with
    | |- context [(?a >? ?b)%Z] => rewrite (Z.gtb_ltb a b)
    | |- context [(?a <? ?b)%Z] => destruct (Z.ltb_spec a b)
    | |- context [(?a =? ?b)%Z] => destruct (Z.eqb_spec a b)
    end.

Ltac tests :=
  repeat (cbn [player p_x p_y p_stopped p_initialSquarePosition p_charImage root
               enemies events timers trace] in *;
          split_tests);
  cbn [player p_x p_y p_stopped p_initialSquarePosition p_charImage root
       enemies events timers trace] in *.

(** X5: for a player that is not stopped and stands on the grid.  A move
    down, left or right changes one coordinate by one step or nothing at
    all, and keeps the sprite, the freeze flag and the player on the grid.
    A move up from row 2 or higher changes the row by one and nothing else
    in the game.  A move up from row 1 or row 0 ends on row 0 in the same
    column and with the same sprite, and, by the WIN that it publishes on
    the game's bus, with the player stopped.  Away from the edges the
    moves undo each other: right then left, left then right, down then up
    and up then down give back the state they started from (the last two as
    long as row 0 is not reached). *)
Theorem moves_step_and_back (fuel : nat) (w : World) :
  let p := player w in
  in_grid p ->
  p_stopped p = false ->
  (forall q, q = Player._moveDown p \/ q = Player._moveLeft p \/ q = Player._moveRight p ->
     Z.abs (p_x q - p_x p) + Z.abs (p_y q - p_y p) <= 1
     /\ in_grid q
     /\ Player.set_y (p_y p) (Player.set_x (p_x p) q) = p)
  /\ (2 <= p_y p ->
      Player._moveUp fuel w = Some (set_player (Player.set_y (p_y p - 1) p) w))
  /\ (p_y p <= 1 -> events w = game_events ->
      exists w1,
        Player._moveUp (S (S fuel)) w = Some w1
        /\ player w1 = mkPlayer (p_x p) 0 (p_initialSquarePosition p) (p_charImage p) true)
  /\ (p_x p < 4 -> Player._moveLeft (Player._moveRight p) = p)
  /\ (0 < p_x p -> Player._moveRight (Player._moveLeft p) = p)
  /\ (1 <= p_y p < 5 ->
      Player._moveUp fuel (set_player (Player._moveDown p) w) = Some w)
  /\ (2 <= p_y p ->
      exists w1, Player._moveUp fuel w = Some w1
                 /\ p_y (player w1) = p_y p - 1
                 /\ set_player (Player._moveDown (player w1)) w1 = w).
Proof.
  destruct w as [r [x y init img st] es ev ts tr].
  cbn [player]. unfold in_grid. cbn [p_x p_y p_stopped p_initialSquarePosition p_charImage].
  intros [Hx Hy] ->.
  split; [|split; [|split; [|split; [|split; [|split]]]]].
  - unfold Player._moveDown, Player._moveLeft, Player._moveRight,
      Player.set_x, Player.set_y.
    intros q [-> | [-> | ->]]; tests; (split; [lia|split; [lia|reflexivity]]).
  - intros H. unfold Player._moveUp, Player.set_y, set_player.
    tests; try lia. reflexivity.
  - intros H Hev. cbn [events] in Hev. subst ev.
    unfold Player._moveUp. cbn [player p_stopped p_y].
    assert (Hrow : y = 0 \/ y = 1) by lia.
    destruct Hrow as [-> | ->].
    + change (0 >? 0) with false. cbv iota. cbn [player p_y]. change (0 =? 0) with true.
      cbv iota. rewrite emit_WIN by reflexivity. eexists. split; reflexivity.
    + change (1 >? 0) with true. cbv iota. cbn [player set_player Player.set_y p_y].
      change (1 - 1 =? 0) with true. cbv iota.
      rewrite emit_WIN by reflexivity. eexists. split; reflexivity.
  - unfold Player._moveLeft, Player._moveRight, Player.set_x.
    intros H. tests; try lia. f_equal. lia.
  - unfold Player._moveLeft, Player._moveRight, Player.set_x.
    intros H. tests; try lia. f_equal. lia.
  - unfold Player._moveUp, Player._moveDown, Player.set_y, set_player.
    intros H. tests; try lia. do 3 f_equal. lia.
  - unfold Player._moveUp, Player._moveDown, Player.set_y, set_player.
    intros H. tests; try lia.
    eexists. split; [reflexivity|]. tests; try lia.
    split; [reflexivity|]. do 2 f_equal. lia.
Qed.

Lemma moves_step_and_back_witness :
  Player._moveLeft (Player._moveRight first_player) = first_player
  /\ Player._moveUp 0
       (set_player (Player._moveDown (mkPlayer 2 3 (2, 5) (Str CHARACTERS.BOY) false))
          (game_with (mkPlayer 2 3 (2, 5) (Str CHARACTERS.BOY) false) []))
     = Some (game_with (mkPlayer 2 3 (2, 5) (Str CHARACTERS.BOY) false) [])
  /\ exists w1,
       Player._moveUp 2 (game_with (mkPlayer 2 1 (2, 5) (Str CHARACTERS.BOY) false) [])
       = Some w1
       /\ player w1 = mkPlayer 2 0 (2, 5) (Str CHARACTERS.BOY) true.
Proof.
  split; [|split].
  - apply (moves_step_and_back 0 (game_with first_player [])); cbn; unfold in_grid; cbn; lia.
  - apply (moves_step_and_back 0
             (game_with (mkPlayer 2 3 (2, 5) (Str CHARACTERS.BOY) false) []));
      cbn; unfold in_grid; cbn; lia.
  - apply (moves_step_and_back 0
             (game_with (mkPlayer 2 1 (2, 5) (Str CHARACTERS.BOY) false) [])).
    + unfold in_grid. cbn [player game_with p_x p_y]. lia.
    + reflexivity.
    + cbn [player game_with p_y]. lia.
    + apply game_with_events.
Defined.

(** ** When the player is hit *)

Lemma rows_apart (r y : Z) :
  (inject_Z (r * 83 - 25) - inject_Z (y * 83 - 25) == 83 * inject_Z (r - y))%Q.
Proof.
  unfold Z.sub. rewrite !inject_Z_plus, !inject_Z_mult, !inject_Z_opp.
  change (inject_Z 83) with 83%Q. change (inject_Z 25) with 25%Q. ring.
Qed.

Lemma same_row (r y : Z) :
  (-1 < inject_Z (r - y))%Q -> (inject_Z (r - y) < 1)%Q -> r = y.
Proof.
  change (-1)%Q with (inject_Z (-1)). change 1%Q with (inject_Z 1).
  rewrite <- !Zlt_Qlt. lia.
Qed.

(** The player's boundary against the boundary of one enemy. *)
Lemma player_enemy_collision (p : Player) (e : Enemy) :
  GameElementBoundaries.checkCollision
    (GameElementBoundaries.new p (GameElementBoundaries.mkThresholds 22 22 9 30))
    (GameElementBoundaries.new e GameElementBoundaries.defaults) = true
  <-> hits p e.
Proof.
  unfold hits. rewrite Qabs_Qle_condition.
  pose proof (rows_apart (e_row e) (p_y p)) as Hrows.
  cbv [GameElementBoundaries.checkCollision GameElementBoundaries.new
       GameElementBoundaries._checkTopRightCollision
       GameElementBoundaries._checkTopLeftCollision
       GameElementBoundaries._checkBottomRightCollision
       GameElementBoundaries._checkBottomLeftCollision
       getPosition getSize Player_GameElement Enemy_GameElement
       GameElementBoundaries.topLeft GameElementBoundaries.topRight
       GameElementBoundaries.bottomLeft GameElementBoundaries.bottomRight
       GameElementBoundaries.leftThreshold GameElementBoundaries.rightThreshold
       GameElementBoundaries.topThreshold GameElementBoundaries.bottomThreshold
       GameElementBoundaries.opt_leftThreshold GameElementBoundaries.opt_rightThreshold
       GameElementBoundaries.opt_topThreshold GameElementBoundaries.opt_bottomThreshold
       GameElementBoundaries.defaults].
  repeat to_Q.
  set (X := inject_Z (p_x p * 101)) in *.
  set (Yp := inject_Z (p_y p * 83 - 25)) in *.
  set (Ye := inject_Z (e_row e * 83 - 25)) in *.
  set (d := inject_Z (e_row e - p_y p)) in *.
  split.
  - intros H.
    assert (Hd : (-1 < d)%Q /\ (d < 1)%Q) by (split; lra).
    split; [apply same_row; apply Hd|]. lra.
  - intros [Hrow Hx].
    assert (Hy : (Ye == Yp)%Q) by (subst Ye Yp; rewrite Hrow; reflexivity).
    destruct (Qlt_le_dec (e_x e) X); [right|left]; lra.
Qed.

Lemma collisionDetection_iff (w : World) :
  Player.collisionDetection w = true
  <-> exists e, e ∈ enemies w /\ hits (player w) e.
Proof.
  unfold Player.collisionDetection. rewrite existsb_exists.
  split; intros (e & Hin & He); exists e.
  - split; [apply list_elem_of_In; exact Hin|]. apply player_enemy_collision. exact He.
  - split; [apply list_elem_of_In; exact Hin|]. apply player_enemy_collision. exact He.
Qed.

(** In doubles the window is widened by the rounding of [x + 101].  The
    third enemy of the game (row 1, speed 400), made at clock 0 and
    updated at clocks 176 and 560, stands at x = 123 - 2^-46: its left
    edge is more than 79 pixels left of a player on square (2, 1), whose x
    is 202, and yet its right edge is rounded to 224 and the player's
    check passes.  One whole pixel further left, at x = 122, it does
    not. *)
Lemma hit_by_rounding :
  let this :=
    Double._updatePosition 560
      (Double._updatePosition 176 (Double.mkEnemy 1 (-101) 400 0 false)) in
  let x := Double.e_x this in
  x = (123 - 0x1p-46)%float
  /\ (x <? 123)%float = true
  /\ (x + 101 =? 224)%float = true
  /\ Double.checkCollision
       (Double.new (2 * 101, 1 * 83 - 25)%float (101, 83)%float 22 22 9 30)
       (Double.new (x, (Double.e_row this * 83 - 25)%float) (101, 83)%float 0 0 0 0) = true
  /\ Double.checkCollision
       (Double.new (2 * 101, 1 * 83 - 25)%float (101, 83)%float 22 22 9 30)
       (Double.new (122, 1 * 83 - 25)%float (101, 83)%float 0 0 0 0) = false.
Proof. vm_compute. repeat split. Qed.

(** With the enemy on a whole pixel the doubles of the code and the exact
    definitions agree: checked for every square of the grid, every lane
    and every whole pixel from -101 to 505. *)
Lemma player_enemy_in_doubles :
  forallb
    (fun x =>
       forallb
         (fun y =>
            forallb
              (fun row => forallb (fun n => player_enemy_agrees x y row n) (span (-101) 607))
              [1; 2; 3])
         (span 0 6))
    (span 0 5) = true.
Proof. vm_compute. reflexivity. Qed.

(** X6: with every enemy standing on a whole pixel (and all coordinates
    of a size at which the doubles of the code are exact),
    [collisionDetection] finds the player hit exactly when some enemy is on
    the player's row with its left edge at most 79 pixels left or right of
    the player's: the side thresholds 22 shorten the 101 pixel overlap
    range on both sides, and the top and bottom thresholds never matter
    between rows, which are 83 pixels apart. *)
Theorem collisionDetection_hits (w : World) :
  exact (p_x (player w)) ->
  exact (p_y (player w)) ->
  Forall (fun e => exact (e_row e) /\ exists n, exact n /\ e_x e = inject_Z n) (enemies w) ->
  (Player.collisionDetection w = true
   <-> exists e n,
         e ∈ enemies w
         /\ e_x e = inject_Z n
         /\ e_row e = p_y (player w)
         /\ Z.abs (n - p_x (player w) * 101) <= 79).
Proof.
  intros _ _ Hwhole. rewrite collisionDetection_iff. unfold hits.
  assert (Hz : forall n m : Z,
             (Qabs (inject_Z n - inject_Z m) <= 79)%Q <-> Z.abs (n - m) <= 79).
  { intros n m. rewrite Qabs_Qle_condition. unfold Qminus.
    change 79%Q with (inject_Z 79).
    rewrite <- !inject_Z_opp, <- !inject_Z_plus, <- !Zle_Qle. lia. }
  split.
  - intros (e & Hin & Hrow & Hx).
    rewrite Forall_forall in Hwhole.
    destruct (Hwhole e Hin) as (_ & n & _ & Hn).
    exists e, n. rewrite Hn in Hx. apply Hz in Hx. auto.
  - intros (e & n & Hin & Hn & Hrow & Hx).
    exists e. rewrite Hn. split; [exact Hin|]. split; [exact Hrow|]. apply Hz. exact Hx.
Qed.

Lemma collisionDetection_hits_witness :
  Player.collisionDetection
    (game_with (mkPlayer 2 1 (2, 5) (Str CHARACTERS.BOY) false)
       [mkEnemy 1 (inject_Z 150) 20 0 false; mkEnemy 2 (inject_Z 202) 200 0 false]) = true
  /\ Player.collisionDetection
       (game_with (mkPlayer 2 1 (2, 5) (Str CHARACTERS.BOY) false)
          [mkEnemy 1 (inject_Z 122) 20 0 false; mkEnemy 2 (inject_Z 202) 200 0 false])
     <> true.
Proof.
  split.
  - apply (collisionDetection_hits
             (game_with (mkPlayer 2 1 (2, 5) (Str CHARACTERS.BOY) false)
                [mkEnemy 1 (inject_Z 150) 20 0 false; mkEnemy 2 (inject_Z 202) 200 0 false])).
    + unfold exact. cbn [player game_with p_x]. lia.
    + unfold exact. cbn [player game_with p_y]. lia.
    + cbn [enemies game_with]. unfold exact.
      repeat constructor; cbn [e_row]; try lia; eexists; (split; [|reflexivity]); lia.
    + exists (mkEnemy 1 (inject_Z 150) 20 0 false), 150.
      cbn [enemies game_with player p_x p_y e_x e_row].
      split; [apply list_elem_of_here|]. split; [reflexivity|]. split; [reflexivity|lia].
  - intros H.
    apply (collisionDetection_hits
             (game_with (mkPlayer 2 1 (2, 5) (Str CHARACTERS.BOY) false)
                [mkEnemy 1 (inject_Z 122) 20 0 false; mkEnemy 2 (inject_Z 202) 200 0 false]))
      in H.
    + destruct H as (e & n & Hin & Hn & Hrow & Hx).
      cbn [enemies game_with player p_x p_y] in Hin, Hrow, Hx.
      apply elem_of_cons in Hin. destruct Hin as [-> | Hin].
      * cbn [e_x] in Hn. injection Hn as Hn. lia.
      * apply elem_of_cons in Hin. destruct Hin as [-> | Hin].
        -- cbn [e_row] in Hrow. discriminate Hrow.
        -- apply elem_of_nil in Hin. contradiction.
    + unfold exact. cbn [player game_with p_x]. lia.
    + unfold exact. cbn [player game_with p_y]. lia.
    + cbn [enemies game_with]. unfold exact.
      repeat constructor; cbn [e_row]; try lia; eexists; (split; [|reflexivity]); lia.
Defined.

(** ** Going or frozen *)

Lemma steady_first (now1 now2 now3 now4 : Z) :
  steady (game_with first_player (first_enemies now1 now2 now3 now4)).
Proof.
  unfold steady. split; [apply running_first|].
  cbn [game_with first_player first_enemies root player enemies timers canvas map
       e_row e_increase e_x e_stopped p_stopped p_charImage drawWin drawLose orb andb].
  repeat split; try reflexivity.
  - repeat constructor; cbn [e_x]; lra.
  - eauto.
Qed.

(** The enemies of a steady game, one by one. *)
Lemma steady_enemies (w : World) :
  steady w ->
  exists x0 t0 x1 t1 x2 t2 x3 t3,
    enemies w
    = [mkEnemy 1 x0 20 t0 (p_stopped (player w)); mkEnemy 2 x1 200 t1 (p_stopped (player w));
       mkEnemy 1 x2 400 t2 (p_stopped (player w)); mkEnemy 3 x3 300 t3 (p_stopped (player w))]
    /\ (x0 <= 505)%Q /\ (x1 <= 505)%Q /\ (x2 <= 505)%Q /\ (x3 <= 505)%Q.
Proof.
  intros (_ & _ & Hrows & Hinc & Hes & _).
  destruct (enemies w) as [|[r0 x0 i0 t0 s0] [|[r1 x1 i1 t1 s1] [|[r2 x2 i2 t2 s2]
    [|[r3 x3 i3 t3 s3] [|e4 es]]]]]; try discriminate Hrows.
  cbn [map e_row e_increase] in Hrows, Hinc.
  injection Hrows as -> -> -> ->. injection Hinc as -> -> -> ->.
  apply Forall_cons in Hes as [[H0 <-] Hes]. apply Forall_cons in Hes as [[H1 E1] Hes].
  apply Forall_cons in Hes as [[H2 E2] Hes]. apply Forall_cons in Hes as [[H3 E3] _].
  cbn [e_x e_stopped] in *. subst s1 s2 s3.
  exists x0, t0, x1, t1, x2, t2, x3, t3. auto.
Qed.

Ltac steady_cbn :=
  cbn [root player enemies events timers trace set_player set_enemies set_timers
       Player.set_x Player.set_y Player_stop Player_reset Player_changeCharacter
       stop_enemies reset_enemies alter list_alter Enemy_stop Enemy_reset
       map length app canvas drawWin drawLose
       e_row e_x e_increase e_lastUpdate e_stopped
       p_x p_y p_stopped p_initialSquarePosition p_charImage fst snd orb andb] in *.

Ltac show_steady :=
  unfold steady, running, wired, in_grid in *;
  steady_cbn;
  repeat match goal with
    | |- _ /\ _ => split
    | |- Forall _ (_ :: _) => constructor
    | |- Forall _ [] => constructor
    | |- exists url, Str _ = Str url => eexists; reflexivity
    end;
  steady_cbn;
  try reflexivity; try assumption; try lia; try lra; try congruence.

Lemma steady_step (fuel : nat) (i : FroggerGame.Input) (w : World) :
  steady w ->
  exists w', FroggerGame.step (S (S fuel)) i w = Some w' /\ steady w'.
Proof.
  intros Hs.
  destruct (steady_enemies w Hs) as (x0 & t0 & x1 & t1 & x2 & t2 & x3 & t3 & Hen & B0 & B1 & B2 & B3).
  destruct w as [[dw dl cv] [x y init img st] es ev ts tr].
  cbn [enemies player p_stopped] in Hen. subst es.
  destruct Hs as (((Hev & _) & Hinit & (Hx & Hy) & Hgoal) & Hcv & _ & _ & _ & Hts & Hov & Hex & url & Himg).
  cbn [root player enemies events timers canvas drawWin drawLose
       p_x p_y p_stopped p_initialSquarePosition p_charImage] in *.
  subst ev cv init img.
  destruct i; cbn [FroggerGame.step]; unfold modify.
  - (* KeyUp *)
    unfold Player._moveUp. cbn [player p_stopped p_y].
    destruct st; [eexists; split; [reflexivity|show_steady]|].
    assert (Hgt : (y >? 0) = true).
    { apply Z.gtb_lt. destruct (Z.eq_dec y 0) as [E|E]; [|lia].
      specialize (Hgoal E). discriminate Hgoal. }
    rewrite Hgt. cbn [player set_player Player.set_y p_y].
    destruct (y - 1 =? 0) eqn:Hz.
    + rewrite emit_WIN by reflexivity. eexists. split; [reflexivity|].
      destruct dw, dl; try discriminate Hov. subst ts. show_steady.
    + eexists. split; [reflexivity|]. show_steady.
  - (* KeyDown *)
    eexists. split; [reflexivity|]. unfold Player._moveDown. cbn [player p_stopped p_y].
    destruct st; [show_steady|]. destruct (y <? 5) eqn:Hlt; show_steady.
  - (* KeyLeft *)
    eexists. split; [reflexivity|]. unfold Player._moveLeft. cbn [player p_stopped p_x].
    destruct st; [show_steady|]. destruct (x >? 0) eqn:Hlt; show_steady.
  - (* KeyRight *)
    eexists. split; [reflexivity|]. unfold Player._moveRight. cbn [player p_stopped p_x].
    destruct st; [show_steady|]. destruct (x <? 4) eqn:Hlt; show_steady.
  - (* ChangeCharacter *)
    rewrite emit_CHANGE_CHARACTER by reflexivity. eexists. split; [reflexivity|].
    show_steady.
  - (* TimerFires *)
    unfold FroggerGame.on_timeout. cbn [timers]. subst ts.
    destruct st; [|eexists; split; [reflexivity|show_steady]].
    rewrite emit_RESET by reflexivity. eexists. split; [reflexivity|]. show_steady.
  - (* PlayerDraw *)
    unfold Player.drawItself.
    destruct (Player.collisionDetection _); cbn [player p_stopped andb negb];
      [|eexists; split; [reflexivity|show_steady]].
    destruct st; cbn [negb]; [eexists; split; [reflexivity|show_steady]|].
    rewrite emit_LOSE by reflexivity. eexists. split; [reflexivity|].
    destruct dw, dl; try discriminate Hov. subst ts. show_steady.
  - (* EnemyDraw *)
    eexists. split; [reflexivity|].
    unfold Enemy.drawItself, Enemy._updatePosition.
    destruct i as [|[|[|[|i]]]]; cbn [set_enemies alter list_alter enemies e_stopped];
      try change (alter _ i (@nil Enemy)) with (@nil Enemy);
      destruct st; try solve [show_steady];
      cbn [e_x e_increase e_lastUpdate e_row];
      try match goal with
        | |- context [Qgtb ?a 505] =>
            let E := fresh "E" in
            destruct (Qgtb a 505) eqn:E; [|apply Qgtb_false_iff in E]
        end;
      show_steady.
Qed.

Lemma steady_run (fuel : nat) (inputs : list FroggerGame.Input) :
  forall w, steady w ->
  exists w', FroggerGame.run (S (S fuel)) inputs w = Some w' /\ steady w'.
Proof.
  induction inputs as [|i rest IH]; intros w Hs; cbn [FroggerGame.run].
  - unfold skip. eauto.
  - unfold andThen. destruct (steady_step fuel i w Hs) as (w1 & -> & Hs1).
    apply IH. exact Hs1.
Qed.

Lemma steady_reached (now1 now2 now3 now4 : Z) (fuel : nat)
    (inputs : list FroggerGame.Input) :
  exists w,
    FroggerGame.run (S (S fuel)) inputs (FroggerGame.new now1 now2 now3 now4) = Some w
    /\ steady w.
Proof.
  rewrite new_game_with. apply steady_run. apply steady_first.
Qed.

(** X7: whatever the inputs, the game built by [FroggerGame.new] is either
    going (nothing is stopped, no timer is pending, the field shows no
    overlay) or frozen as a whole (the player and every enemy are stopped,
    exactly one RESET timer of 2000 ms is pending, and exactly one of the
    win and lose overlays is on).  In particular WIN and LOSE never both
    show, and a second RESET is never scheduled while one is pending. *)
Theorem going_or_frozen (now1 now2 now3 now4 : Z) (fuel : nat)
    (inputs : list FroggerGame.Input) :
  exists w,
    FroggerGame.run (S (S fuel)) inputs (FroggerGame.new now1 now2 now3 now4) = Some w
    /\ (p_stopped (player w) = false
        /\ Forall (fun e => e_stopped e = false) (enemies w)
        /\ timers w = []
        /\ drawWin (root w) = false /\ drawLose (root w) = false
        \/ p_stopped (player w) = true
           /\ Forall (fun e => e_stopped e = true) (enemies w)
           /\ timers w = [(2000, EmitReset)]
           /\ xorb (drawWin (root w)) (drawLose (root w)) = true).
Proof.
  destruct (steady_reached now1 now2 now3 now4 fuel inputs) as (w & Hrun & Hs).
  exists w. split; [exact Hrun|].
  destruct Hs as (_ & _ & _ & _ & Hes & Hts & Hov & Hex & _).
  destruct (p_stopped (player w)); [right|left].
  - split; [reflexivity|]. split; [|split; [exact Hts|]].
    + eapply Forall_impl; [exact Hes|]. intros e [_ H]. exact H.
    + destruct (drawWin (root w)), (drawLose (root w)); try discriminate; reflexivity.
  - split; [reflexivity|]. split; [|split; [exact Hts|]].
    + eapply Forall_impl; [exact Hes|]. intros e [_ H]. exact H.
    + destruct (drawWin (root w)), (drawLose (root w)); try discriminate; auto.
Qed.

(** X8: the enemies keep their lanes and speeds for ever: rows 1, 2, 1, 3
    (drawn at y = 58, 141, 58, 224) with speeds 20, 200, 400, 300, and no
    enemy is ever found right of x = 505, whatever the clock does. *)
Theorem enemies_keep_lanes (now1 now2 now3 now4 : Z) (fuel : nat)
    (inputs : list FroggerGame.Input) :
  exists w,
    FroggerGame.run (S (S fuel)) inputs (FroggerGame.new now1 now2 now3 now4) = Some w
    /\ map e_row (enemies w) = [1; 2; 1; 3]
    /\ map e_increase (enemies w) = [20; 200; 400; 300]%Q
    /\ map (fun e => snd (getPosition e)) (enemies w) = [58; 141; 58; 224]%Q
    /\ Forall (fun e => (e_x e <= 505)%Q) (enemies w).
Proof.
  destruct (steady_reached now1 now2 now3 now4 fuel inputs) as (w & Hrun & Hs).
  exists w. split; [exact Hrun|].
  destruct (steady_enemies w Hs) as (x0 & t0 & x1 & t1 & x2 & t2 & x3 & t3 & -> & B0 & B1 & B2 & B3).
  split; [reflexivity|]. split; [reflexivity|]. split; [reflexivity|].
  repeat constructor; assumption.
Qed.

(** X9: one update of an enemy never leaves it right of 505 if it was not
    there before; and with a speed that is not negative and a clock that
    has not gone back since the last update, an enemy that is at or right
    of -101 stays there. *)
Theorem updatePosition_bounds (now : Z) (this : Enemy) :
  (e_x this <= 505)%Q ->
  (-101 <= e_x this)%Q ->
  (0 <= e_increase this)%Q ->
  e_lastUpdate this <= now ->
  (-101 <= e_x (Enemy._updatePosition now this) <= 505)%Q.
Proof.
  intros Hhi Hlo Hinc Hclock.
  unfold Enemy._updatePosition. destruct (e_stopped this); [split; assumption|].
  cbn [e_x].
  assert (Ht : (0 <= inject_Z (now - e_lastUpdate this) / 1000)%Q).
  { apply Qle_shift_div_l; [reflexivity|]. rewrite Qmult_0_l.
    change 0%Q with (inject_Z 0). rewrite <- Zle_Qle. lia. }
  assert (Hmove : (0 <= e_increase this * (inject_Z (now - e_lastUpdate this) / 1000))%Q)
    by (apply Qmult_le_0_compat; assumption).
  destruct (Qgtb _ 505) eqn:E.
  - split; lra.
  - apply Qgtb_false_iff in E. split; lra.
Qed.

Lemma updatePosition_bounds_witness :
  (-101 <= e_x (Enemy._updatePosition 1500 (mkEnemy 2 100 200 1000 false)) <= 505)%Q.
Proof.
  apply (updatePosition_bounds 1500 (mkEnemy 2 100 200 1000 false)); cbn; try lra; lia.
Defined.

Lemma frozen_step (fuel : nat) (i : FroggerGame.Input) (w : World) :
  steady w ->
  p_stopped (player w) = true ->
  match i with
  | FroggerGame.TimerFires | FroggerGame.ChangeCharacter _ => True
  | _ => FroggerGame.step fuel i w = Some w
  end.
Proof.
  intros Hs Hst.
  destruct (steady_enemies w Hs) as (x0 & t0 & x1 & t1 & x2 & t2 & x3 & t3 & Hen & _).
  destruct w as [r [x y init img st] es ev ts tr].
  cbn [enemies player p_stopped] in Hen, Hst. subst es st.
  destruct i; cbn [FroggerGame.step]; unfold modify; try exact I; try reflexivity.
  - unfold Player.drawItself. cbn [player p_stopped negb]. rewrite andb_false_r. reflexivity.
  - unfold Enemy.drawItself, Enemy._updatePosition.
    destruct i as [|[|[|[|i]]]]; cbn [set_enemies alter list_alter enemies e_stopped];
      try change (alter _ i (@nil Enemy)) with (@nil Enemy); reflexivity.
Qed.

(** X10: frozen means frozen.  In every state the game reaches, while the
    player is stopped no key press and no draw of the player or of an
    enemy changes anything at all; only the timer (and a change of
    character) still act, and the timer sets the game going again with the
    player on square (2, 5) and every enemy at x = -101. *)
Theorem frozen_until_timer (now1 now2 now3 now4 : Z) (fuel : nat)
    (inputs : list FroggerGame.Input) (i : FroggerGame.Input) :
  exists w,
    FroggerGame.run (S (S fuel)) inputs (FroggerGame.new now1 now2 now3 now4) = Some w
    /\ (p_stopped (player w) = true ->
        match i with
        | FroggerGame.TimerFires =>
            exists w',
              FroggerGame.step (S (S fuel)) i w = Some w'
              /\ p_stopped (player w') = false
              /\ p_x (player w') = 2 /\ p_y (player w') = 5
              /\ Forall (fun e => e_x e = (-101)%Q /\ e_stopped e = false) (enemies w')
              /\ timers w' = []
        | FroggerGame.ChangeCharacter value =>
            exists w',
              FroggerGame.step (S (S fuel)) i w = Some w'
              /\ player w' = Player_changeCharacter (Str value) (player w)
              /\ enemies w' = enemies w /\ root w' = root w /\ timers w' = timers w
        | _ => FroggerGame.step (S (S fuel)) i w = Some w
        end).
Proof.
  destruct (steady_reached now1 now2 now3 now4 fuel inputs) as (w & Hrun & Hs).
  exists w. split; [exact Hrun|]. intros Hst.
  pose proof (frozen_step (S (S fuel)) i w Hs Hst) as Hfrozen.
  destruct i; try exact Hfrozen.
  - (* ChangeCharacter *)
    cbn [FroggerGame.step].
    rewrite emit_CHANGE_CHARACTER by apply Hs.
    eexists. split; [reflexivity|]. cbn [player enemies root timers]. auto.
  - (* TimerFires *)
    cbn [FroggerGame.step]. unfold FroggerGame.on_timeout.
    destruct Hs as (((Hev & Hlen) & Hinit & _) & _ & _ & _ & _ & Hts & _).
    rewrite Hst in Hts. rewrite Hts.
    rewrite emit_RESET by exact Hev.
    eexists. split; [reflexivity|].
    cbn [player enemies root timers set_timers Player_reset p_x p_y p_stopped].
    rewrite Hinit. cbn [fst snd].
    repeat split. apply reset_enemies_all. exact Hlen.
Qed.

(** ** Losing *)

Lemma LOSE_trace_published (source : Source) (params : Value) :
  published GAME_EVENTS.LOSE (LOSE_trace source params) = [(source, params)]
  /\ published GAME_EVENTS.STOP (LOSE_trace source params) = [(SrcGame, EmptyObject)]
  /\ published GAME_EVENTS.WIN (LOSE_trace source params) = []
  /\ published GAME_EVENTS.RESET (LOSE_trace source params) = [].
Proof. repeat split. Qed.

(** X11: the draw of a player that is not stopped and for which
    [collisionDetection] finds a collision publishes LOSE once, with the
    player as source, and no WIN; with the game's observers this switches
    the lose overlay on, stops the player where it stands and every enemy,
    and schedules the RESET.  If the player is stopped or
    [collisionDetection] finds none, its draw changes nothing and publishes
    nothing. *)
Theorem drawItself_publishes_LOSE (fuel : nat) (w : World) :
  wired w ->
  (p_stopped (player w) = false ->
   Player.collisionDetection w = true ->
   exists w',
     Player.drawItself (S (S fuel)) w = Some w'
     /\ trace w' = trace w ++ LOSE_trace SrcPlayer EmptyObject
     /\ published GAME_EVENTS.LOSE (LOSE_trace SrcPlayer EmptyObject) = [(SrcPlayer, EmptyObject)]
     /\ published GAME_EVENTS.WIN (LOSE_trace SrcPlayer EmptyObject) = []
     /\ drawLose (root w') = true
     /\ player w' = Player_stop (player w)
     /\ enemies w' = stop_enemies (enemies w)
     /\ Forall (fun e => e_stopped e = true) (enemies w')
     /\ timers w' = timers w ++ [(2000, EmitReset)])
  /\ (p_stopped (player w) = true \/ Player.collisionDetection w = false ->
      Player.drawItself (S (S fuel)) w = Some w).
Proof.
  intros [Hev Hlen]. unfold Player.drawItself. split.
  - intros Hst Hhit. rewrite Hhit, Hst.
    cbn [andb negb]. rewrite emit_LOSE by exact Hev.
    eexists. split; [reflexivity|]. cbn [trace root player enemies timers drawLose].
    repeat split. apply stop_enemies_all. exact Hlen.
  - intros [Hst|Hmiss].
    + rewrite Hst. cbn [negb]. rewrite andb_false_r. reflexivity.
    + rewrite Hmiss. reflexivity.
Qed.

Lemma drawItself_publishes_LOSE_witness :
  (exists w',
     Player.drawItself 2
       (game_with (mkPlayer 2 1 (2, 5) (Str CHARACTERS.BOY) false)
          [mkEnemy 1 150 20 0 false; mkEnemy 2 (-101) 200 0 false;
           mkEnemy 1 400 400 0 false; mkEnemy 3 (-101) 300 0 false]) = Some w'
     /\ drawLose (root w') = true
     /\ p_stopped (player w') = true)
  /\ Player.drawItself 2 (game_with first_player (first_enemies 0 0 0 0))
     = Some (game_with first_player (first_enemies 0 0 0 0)).
Proof.
  split.
  - destruct (drawItself_publishes_LOSE 0
                (game_with (mkPlayer 2 1 (2, 5) (Str CHARACTERS.BOY) false)
                   [mkEnemy 1 150 20 0 false; mkEnemy 2 (-101) 200 0 false;
                    mkEnemy 1 400 400 0 false; mkEnemy 3 (-101) 300 0 false]))
      as [Hhit _].
    + split; [apply game_with_events|reflexivity].
    + destruct Hhit as (w' & Hw' & _ & _ & _ & Hl & Hp & _).
      * reflexivity.
      * unfold Player.collisionDetection. cbn [enemies game_with player].
        vm_compute. reflexivity.
      * exists w'. split; [exact Hw'|]. split; [exact Hl|]. rewrite Hp. reflexivity.
  - destruct (drawItself_publishes_LOSE 0 (game_with first_player (first_enemies 0 0 0 0)))
      as [_ Hmiss].
    + split; [apply game_with_events|reflexivity].
    + apply Hmiss. right.
      unfold Player.collisionDetection. cbn [enemies game_with player].
      vm_compute. reflexivity.
Defined.

(** ** Stopping and resetting twice *)

(** X12: in the game, processing STOP or RESET a second time changes
    nothing, and a RESET undoes a STOP entirely: RESET after STOP leaves
    the game as RESET alone does. *)
Theorem STOP_RESET_idempotent (fuel : nat) (source : Source) (params : Value) (w : World) :
  wired w ->
  exists stopped reset,
    emitEvent (S fuel) GAME_EVENTS.STOP source params w = Some stopped
    /\ emitEvent (S fuel) GAME_EVENTS.RESET source params w = Some reset
    /\ (exists again,
          emitEvent (S fuel) GAME_EVENTS.STOP source params stopped = Some again
          /\ same_game again stopped)
    /\ (exists again,
          emitEvent (S fuel) GAME_EVENTS.RESET source params reset = Some again
          /\ same_game again reset)
    /\ (exists thawed,
          emitEvent (S fuel) GAME_EVENTS.RESET source params stopped = Some thawed
          /\ same_game thawed reset).
Proof.
  intros [Hev Hlen].
  destruct (four_enemies _ Hlen) as (e0 & e1 & e2 & e3 & Hes).
  rewrite (emit_STOP fuel source params w Hev), (emit_RESET fuel source params w Hev).
  eexists. eexists. split; [reflexivity|]. split; [reflexivity|].
  split; [|split].
  - rewrite emit_STOP by exact Hev. eexists. split; [reflexivity|].
    unfold same_game. cbn [root player enemies events timers]. rewrite Hes.
    repeat split.
  - rewrite emit_RESET by exact Hev. eexists. split; [reflexivity|].
    unfold same_game. cbn [root player enemies events timers canvas]. rewrite Hes.
    repeat split.
  - rewrite emit_RESET by exact Hev. eexists. split; [reflexivity|].
    unfold same_game. cbn [root player enemies events timers]. rewrite Hes.
    repeat split.
Qed.

Lemma STOP_RESET_idempotent_witness :
  exists stopped again,
    emitEvent 1 GAME_EVENTS.STOP SrcGame EmptyObject
      (game_with first_player (first_enemies 0 0 0 0)) = Some stopped
    /\ emitEvent 1 GAME_EVENTS.STOP SrcGame EmptyObject stopped = Some again
    /\ same_game again stopped.
Proof.
  destruct (STOP_RESET_idempotent 0 SrcGame EmptyObject
              (game_with first_player (first_enemies 0 0 0 0)))
    as (stopped & reset & Hs & _ & (again & Ha & Hsame) & _).
  - split; [apply game_with_events|reflexivity].
  - exists stopped, again. auto.
Defined.

(** ** What a frame draws *)

Lemma field_tiles_closed (this : FieldElement) :
  exists overlay,
    Render.FieldElement_drawItself this
    = [drawImage (Str "img/water-block.png") 0 0; drawImage (Str "img/stone-block.png") 0 83;
       drawImage (Str "img/stone-block.png") 0 166; drawImage (Str "img/stone-block.png") 0 249;
       drawImage (Str "img/grass-block.png") 0 332; drawImage (Str "img/grass-block.png") 0 415;
       drawImage (Str "img/water-block.png") 101 0; drawImage (Str "img/stone-block.png") 101 83;
       drawImage (Str "img/stone-block.png") 101 166; drawImage (Str "img/stone-block.png") 101 249;
       drawImage (Str "img/grass-block.png") 101 332; drawImage (Str "img/grass-block.png") 101 415;
       drawImage (Str "img/water-block.png") 202 0; drawImage (Str "img/stone-block.png") 202 83;
       drawImage (Str "img/stone-block.png") 202 166; drawImage (Str "img/stone-block.png") 202 249;
       drawImage (Str "img/grass-block.png") 202 332; drawImage (Str "img/grass-block.png") 202 415;
       drawImage (Str "img/water-block.png") 303 0; drawImage (Str "img/stone-block.png") 303 83;
       drawImage (Str "img/stone-block.png") 303 166; drawImage (Str "img/stone-block.png") 303 249;
       drawImage (Str "img/grass-block.png") 303 332; drawImage (Str "img/grass-block.png") 303 415;
       drawImage (Str "img/water-block.png") 404 0; drawImage (Str "img/stone-block.png") 404 83;
       drawImage (Str "img/stone-block.png") 404 166; drawImage (Str "img/stone-block.png") 404 249;
       drawImage (Str "img/grass-block.png") 404 332; drawImage (Str "img/grass-block.png") 404 415]%Q
      ++ overlay
    /\ overlay
       = (if drawLose this
          then [fillStyle "#ff000033"; fillRect 0 0 (fst (canvas this)) (snd (canvas this))]
          else if drawWin this
          then [fillStyle "#00ff0033"; fillRect 0 0 (fst (canvas this)) (snd (canvas this))]
          else []).
Proof.
  eexists. split; [|reflexivity]. unfold Render.FieldElement_drawItself.
  f_equal; vm_compute; reflexivity.
Qed.


Lemma draw_enemies_cmds (clock : nat -> Z) (es : list Enemy) :
  forall i,
    snd (Render.draw_enemies clock i es)
    = flat_map
        (fun e => Render.block
                    [drawImage (Str "img/enemy-bug.png") (e_x e) (inject_Z (e_row e * 83 - 25))])
        (fst (Render.draw_enemies clock i es)).
Proof.
  induction es as [|e rest IH]; intros i; cbn [Render.draw_enemies].
  - reflexivity.
  - unfold Render.Enemy_drawItself. cbn [getPosition Enemy_GameElement].
    specialize (IH (S i)).
    destruct (Render.draw_enemies clock (S i) rest) as [rest' cmds'].
    cbn [fst snd flat_map] in *. rewrite IH. reflexivity.
Qed.

Lemma depth_plain (cmds rest : list Draw) (d : nat) :
  Forall (fun c => c <> save /\ c <> restore) cmds ->
  Render.depth d (cmds ++ rest) = Render.depth d rest.
Proof.
  induction 1 as [|c cmds [Hs Hr] _ IH]; [reflexivity|].
  cbn [app Render.depth]. destruct c; try contradiction; exact IH.
Qed.

Lemma depth_block (cmds rest : list Draw) (d : nat) :
  Forall (fun c => c <> save /\ c <> restore) cmds ->
  Render.depth d (Render.block cmds ++ rest) = Render.depth d rest.
Proof.
  intros H. unfold Render.block. cbn [app Render.depth].
  rewrite <- app_assoc, depth_plain by exact H. reflexivity.
Qed.

Lemma depth_enemies (es : list Enemy) (d : nat) :
  Render.depth d
    (flat_map
       (fun e => Render.block
                   [drawImage (Str "img/enemy-bug.png") (e_x e) (inject_Z (e_row e * 83 - 25))])
       es)
  = Some d.
Proof.
  induction es as [|e es IH]; [reflexivity|].
  cbn [flat_map]. rewrite depth_block; [exact IH|].
  repeat constructor; discriminate.
Qed.

Lemma field_plain (this : FieldElement) :
  Forall (fun c => c <> save /\ c <> restore) (Render.FieldElement_drawItself this).
Proof.
  destruct (field_tiles_closed this) as (overlay & -> & ->).
  apply Forall_app. split.
  - repeat constructor; discriminate.
  - destruct (drawLose this); [|destruct (drawWin this)]; repeat constructor; discriminate.
Qed.

(** One frame, given what the draw of the player does to the game. *)
Lemma run_frame (fuel : nat) (clock : nat -> Z) (w w1 : World) :
  Player.drawItself fuel w = Some w1 ->
  Render.run fuel clock w
  = Some (set_enemies (fst (Render.draw_enemies clock 0 (enemies w1))) w1,
          clearRect 0 0 (fst (canvas (root w))) (snd (canvas (root w)))
          :: Render.block (Render.FieldElement_drawItself (root w))
          ++ Render.block
               [drawImage (p_charImage (player w))
                  (inject_Z (p_x (player w) * 101)) (inject_Z (p_y (player w) * 83 - 25))]
          ++ flat_map
               (fun e => Render.block
                           [drawImage (Str "img/enemy-bug.png") (e_x e)
                              (inject_Z (e_row e * 83 - 25))])
               (fst (Render.draw_enemies clock 0 (enemies w1)))).
Proof.
  intros H. unfold Render.run, Render.draw, Render.Player_drawItself.
  cbn [getPosition Player_GameElement]. rewrite H.
  rewrite <- draw_enemies_cmds.
  destruct (Render.draw_enemies clock 0 (enemies w1)) as [es cmds]. reflexivity.
Qed.

Lemma drawItself_keeps_player (fuel : nat) (w w1 : World) :
  events w = game_events ->
  Player.drawItself (S (S fuel)) w = Some w1 ->
  p_x (player w1) = p_x (player w) /\ p_y (player w1) = p_y (player w)
  /\ p_charImage (player w1) = p_charImage (player w).
Proof.
  intros Hev. unfold Player.drawItself.
  destruct (Player.collisionDetection w && negb (p_stopped (player w))).
  - rewrite emit_LOSE by exact Hev. intros [= <-]. cbn [player]. auto.
  - intros [= <-]. auto.
Qed.

(** X14: a frame of the game, in any state it reaches, paints in this
    order: the cleared canvas, the field as it was before the frame, the
    player's sprite at (101 x, 83 y - 25), and every enemy at the position
    it has after its update in this frame, each element between its own
    [save] and [restore], which are balanced.  For the game, the frame is
    the draw of the player followed by the draws of the four enemies, and
    it leaves the player where it was. *)
Theorem frame_paints_all (now1 now2 now3 now4 : Z) (fuel : nat)
    (inputs : list FroggerGame.Input) (clock : nat -> Z) :
  exists w w' cmds,
    FroggerGame.run (S (S fuel)) inputs (FroggerGame.new now1 now2 now3 now4) = Some w
    /\ Render.run (S (S fuel)) clock w = Some (w', cmds)
    /\ cmds
       = clearRect 0 0 505 606
         :: Render.block (Render.FieldElement_drawItself (root w))
         ++ Render.block
              [drawImage (p_charImage (player w'))
                 (inject_Z (p_x (player w') * 101)) (inject_Z (p_y (player w') * 83 - 25))]
         ++ flat_map
              (fun e => Render.block
                          [drawImage (Str "img/enemy-bug.png") (e_x e)
                             (inject_Z (e_row e * 83 - 25))])
              (enemies w')
    /\ Render.depth 0 cmds = Some 0%nat
    /\ FroggerGame.run (S (S fuel))
         [FroggerGame.PlayerDraw;
          FroggerGame.EnemyDraw 0 (clock 0%nat); FroggerGame.EnemyDraw 1 (clock 1%nat);
          FroggerGame.EnemyDraw 2 (clock 2%nat); FroggerGame.EnemyDraw 3 (clock 3%nat)] w
       = Some w'
    /\ p_x (player w') = p_x (player w) /\ p_y (player w') = p_y (player w).
Proof.
  destruct (steady_reached now1 now2 now3 now4 fuel inputs) as (w & Hrun & Hs).
  destruct (steady_step fuel FroggerGame.PlayerDraw w Hs) as (w1 & Hdraw & Hs1).
  cbn [FroggerGame.step] in Hdraw.
  assert (Hev : events w = game_events) by apply Hs.
  destruct (drawItself_keeps_player fuel w w1 Hev Hdraw) as (Hx & Hy & Himg).
  assert (Hcv : canvas (root w) = (505, 606)%Q) by apply Hs.
  exists w. eexists. eexists. split; [exact Hrun|].
  split; [apply run_frame; exact Hdraw|].
  cbn [player enemies set_enemies]. rewrite Hcv, Hx, Hy, Himg. cbn [fst snd].
  split; [reflexivity|]. split; [|split; [|auto]].
  - cbn [Render.depth]. rewrite depth_block by apply field_plain.
    rewrite depth_block by (repeat constructor; discriminate).
    apply depth_enemies.
  - cbn [FroggerGame.run FroggerGame.step]. unfold andThen at 1. rewrite Hdraw.
    destruct (steady_enemies w1 Hs1) as (x0 & t0 & x1 & t1 & x2 & t2 & x3 & t3 & Hen & _).
    destruct w1 as [r1 p1 es1 ev1 ts1 tr1]. cbn [enemies player] in Hen. subst es1.
    reflexivity.
Qed.

(** X15: the frame in which the player is hit.  The player is drawn before
    the enemies, so LOSE has stopped every enemy before it is drawn: no
    enemy moves in that frame.  The field is drawn before the player, so
    this frame still shows no overlay and the player's sprite on the
    square where it was hit; the red overlay comes with the next frame. *)
Theorem frame_of_the_hit (fuel : nat) (clock : nat -> Z) (w : World) :
  steady w ->
  p_stopped (player w) = false ->
  (exists e, e ∈ enemies w /\ hits (player w) e) ->
  exists w' cmds,
    Render.run (S (S fuel)) clock w = Some (w', cmds)
    /\ map e_x (enemies w') = map e_x (enemies w)
    /\ Forall (fun e => e_stopped e = true) (enemies w')
    /\ (forall color, fillStyle color ∉ cmds)
    /\ drawImage (p_charImage (player w))
         (inject_Z (p_x (player w) * 101)) (inject_Z (p_y (player w) * 83 - 25)) ∈ cmds
    /\ fillStyle "#ff000033" ∈ Render.FieldElement_drawItself (root w').
Proof.
  intros Hs Hst Hhit.
  assert (Hev : events w = game_events) by apply Hs.
  assert (Hdraw : Player.drawItself (S (S fuel)) w
                  = Some (mkWorld (mkField (drawWin (root w)) true (canvas (root w)))
                            (Player_stop (player w)) (stop_enemies (enemies w))
                            (events w) (timers w ++ [(2000, EmitReset)])
                            (trace w ++ LOSE_trace SrcPlayer EmptyObject))).
  { unfold Player.drawItself. apply collisionDetection_iff in Hhit.
    rewrite Hhit, Hst. cbn [andb negb]. apply emit_LOSE. exact Hev. }
  rewrite (run_frame _ clock _ _ Hdraw).
  destruct (steady_enemies w Hs) as (x0 & t0 & x1 & t1 & x2 & t2 & x3 & t3 & Hen & _).
  destruct Hs as (_ & _ & _ & _ & _ & _ & Hov & _).
  rewrite Hst in Hov, Hen. apply orb_false_iff in Hov as [Hw Hl].
  eexists. eexists. split; [reflexivity|].
  cbn [enemies set_enemies root]. rewrite Hen.
  split; [reflexivity|]. split; [repeat constructor|].
  destruct (field_tiles_closed (root w)) as (overlay & -> & ->).
  rewrite Hl, Hw.
  split; [|split].
  - intros color Hin. apply list_elem_of_In in Hin. cbn in Hin.
    intuition discriminate.
  - apply elem_of_cons. right. apply elem_of_app. right.
    apply elem_of_cons. right. apply list_elem_of_here.
  - match goal with
    | |- _ ∈ Render.FieldElement_drawItself ?f =>
        destruct (field_tiles_closed f) as (overlay & -> & ->)
    end.
    cbn [drawLose]. apply elem_of_app. right. apply list_elem_of_here.
Qed.

Lemma frame_of_the_hit_witness :
  exists w' cmds,
    Render.run 2 (fun _ => 5000)
      (game_with (mkPlayer 2 1 (2, 5) (Str CHARACTERS.BOY) false)
         [mkEnemy 1 150 20 0 false; mkEnemy 2 (-101) 200 0 false;
          mkEnemy 1 400 400 0 false; mkEnemy 3 (-101) 300 0 false])
    = Some (w', cmds)
    /\ map e_x (enemies w') = [150; -101; 400; -101]%Q.
Proof.
  destruct (frame_of_the_hit 0 (fun _ => 5000)
              (game_with (mkPlayer 2 1 (2, 5) (Str CHARACTERS.BOY) false)
                 [mkEnemy 1 150 20 0 false; mkEnemy 2 (-101) 200 0 false;
                  mkEnemy 1 400 400 0 false; mkEnemy 3 (-101) 300 0 false]))
    as (w' & cmds & Hrun & Hx & _).
  - unfold steady, running, wired, in_grid.
    cbn [game_with root player enemies events timers canvas map length
         e_row e_increase e_x e_stopped p_x p_y p_stopped p_initialSquarePosition
         p_charImage drawWin drawLose orb andb].
    repeat split; try reflexivity; try lia; try discriminate.
    + repeat constructor; cbn [e_x]; lra.
    + eauto.
  - reflexivity.
  - exists (mkEnemy 1 150 20 0 false). split; [apply list_elem_of_here|].
    split; [reflexivity|]. vm_compute. discriminate.
  - exists w', cmds. split; [exact Hrun|exact Hx].
Defined.

(** ** Choosing a character *)

(** X16: choosing a character changes the player's sprite and nothing else
    in the game, whether the game is going or frozen; of two choices the
    later one stays; the next draw of the player paints the chosen sprite,
    on the square where the player stands. *)
Theorem character_is_changed (fuel : nat) (value value' : string) (w : World) :
  events w = game_events ->
  exists w1,
    FroggerGame.step (S (S fuel)) (FroggerGame.ChangeCharacter value) w = Some w1
    /\ player w1
       = mkPlayer (p_x (player w)) (p_y (player w)) (p_initialSquarePosition (player w))
           (Str value) (p_stopped (player w))
    /\ root w1 = root w /\ enemies w1 = enemies w /\ timers w1 = timers w
    /\ events w1 = events w
    /\ (exists w2,
          FroggerGame.step (S (S fuel)) (FroggerGame.ChangeCharacter value') w1 = Some w2
          /\ player w2
             = mkPlayer (p_x (player w)) (p_y (player w)) (p_initialSquarePosition (player w))
                 (Str value') (p_stopped (player w)))
    /\ (exists w2,
          Render.Player_drawItself (S (S fuel)) w1
          = Some (w2, [drawImage (Str value) (inject_Z (p_x (player w) * 101))
                         (inject_Z (p_y (player w) * 83 - 25))])).
Proof.
  intros Hev. cbn [FroggerGame.step].
  rewrite emit_CHANGE_CHARACTER by exact Hev.
  eexists. split; [reflexivity|].
  cbn [player root enemies timers events Player_changeCharacter].
  repeat split.
  - rewrite emit_CHANGE_CHARACTER by exact Hev. eexists. split; reflexivity.
  - unfold Render.Player_drawItself.
    cbn [getPosition Player_GameElement player p_x p_y p_charImage].
    unfold Player.drawItself.
    match goal with
    | |- context [Player.collisionDetection ?a && ?b] =>
        destruct (Player.collisionDetection a && b)
    end.
    + rewrite emit_LOSE by exact Hev. eexists. reflexivity.
    + eexists. reflexivity.
Qed.

Lemma character_is_changed_witness :
  exists w1,
    FroggerGame.step 2 (FroggerGame.ChangeCharacter CHARACTERS.CAT_GIRL)
      (game_with first_player (first_enemies 0 0 0 0)) = Some w1
    /\ player w1 = mkPlayer 2 5 (2, 5) (Str CHARACTERS.CAT_GIRL) false.
Proof.
  destruct (character_is_changed 0 CHARACTERS.CAT_GIRL CHARACTERS.BOY
              (game_with first_player (first_enemies 0 0 0 0)))
    as (w1 & H1 & Hp & _).
  - apply game_with_events.
  - exists w1. split; [exact H1|exact Hp].
Defined.
